(** * LychiiBot: message acceptance, normalisation, classification and
      plugin dispatch (src/index.js)

    A shallow embedding of the [LychiiBot] class.  JavaScript strings are
    sequences of UTF-16 code units; the embedding covers the code units
    below 256, held in a [string].  A property read that yields
    [undefined] is [None].  Methods that can throw return a completion
    (normal or throw); the debug lines and plugin calls a method performs
    are returned as a list of effects, oldest first. *)

From Stdlib Require Import String Ascii List NArith Bool Arith Lia.
Import ListNotations.
Local Open Scope string_scope.

Set Implicit Arguments.

(* ================================================================= *)
(** ** JavaScript strings *)

Module JS.

(** [ToString] as a template literal applies it to a property that may be
    undefined. *)
Definition ToString (v : option string) : string :=
  match v with
  | Some s => s
  | None => "undefined"
  end.

(** [a === b] on two values that are strings or undefined. *)
Definition strict_eq (a b : option string) : bool :=
  match a, b with
  | Some x, Some y => String.eqb x y
  | None, None => true
  | _, _ => false
  end.

(** WhiteSpace and LineTerminator code units below 256: TAB, LF, VT, FF,
    CR, SP and NBSP.  [String.prototype.trim] and the class escape [\s]
    use the same set. *)
Definition is_space (c : ascii) : bool :=
  let n := N_of_ascii c in
  ((9 <=? n) && (n <=? 13) || (n =? 32) || (n =? 160))%N.

(** LineTerminator code units below 256, excluded by [.] *)
Definition is_line_terminator (c : ascii) : bool :=
  let n := N_of_ascii c in ((n =? 10) || (n =? 13))%N.

Definition is_digit (c : ascii) : bool :=
  let n := N_of_ascii c in ((48 <=? n) && (n <=? 57))%N.

Definition is_word (c : ascii) : bool :=
  let n := N_of_ascii c in
  ((97 <=? n) && (n <=? 122) || (65 <=? n) && (n <=? 90)
   || (48 <=? n) && (n <=? 57) || (n =? 95))%N.

(** [Canonicalize] of the regular-expression semantics under the [i]
    flag (no [u] flag): the code unit of [toUpperCase] when that is a
    single code unit.  The result is a code unit, which may lie above
    255 (micro sign, y with diaeresis); sharp s has a two-unit upper
    case and is left alone. *)
Definition canonicalize (c : ascii) : N :=
  let n := N_of_ascii c in
  (if (97 <=? n) && (n <=? 122) then n - 32
   else if n =? 181 then 924
   else if n =? 255 then 376
   else if (224 <=? n) && (n <=? 254) && negb (n =? 247) then n - 32
   else n)%N.

Definition canon_eqb (a b : ascii) : bool :=
  (canonicalize a =? canonicalize b)%N.

Fixpoint trimStart (s : string) : string :=
  match s with
  | String c s' => if is_space c then trimStart s' else s
  | EmptyString => EmptyString
  end.

Fixpoint trimEnd (s : string) : string :=
  match s with
  | String c s' =>
      match trimEnd s' with
      | EmptyString => if is_space c then EmptyString else String c EmptyString
      | t => String c t
      end
  | EmptyString => EmptyString
  end.

(** [String.prototype.trim] *)
Definition trim (s : string) : string := trimEnd (trimStart s).

Fixpoint drop (n : nat) (s : string) : string :=
  match n, s with
  | S n', String _ s' => drop n' s'
  | _, _ => s
  end.

Fixpoint take (n : nat) (s : string) : string :=
  match n, s with
  | S n', String c s' => String c (take n' s')
  | _, _ => EmptyString
  end.

End JS.

(* ================================================================= *)
(** ** Regular expressions: a fragment of the pattern language

    [new RegExp(source, 'i')] is modelled for the patterns built from
    pattern characters, [.], [^], [$], the class escapes [\s \S \d \D \w
    \W], the control escapes [\t \n \v \f \r], escaped syntax characters,
    the greedy quantifiers [* + ?], alternation and groups.  A pattern
    using anything else is reported as [OutsideFragment]; nothing is
    claimed about it. *)

Module Regex.

Inductive regex : Type :=
| Eps
| Chr (c : ascii)
| AnyChar
| ClassSpace (negated : bool)
| ClassDigit (negated : bool)
| ClassWord (negated : bool)
| Bol
| Eol
| Cat (r1 r2 : regex)
| Alt (r1 r2 : regex)
| Star (r : regex)
| Plus (r : regex)
| Opt (r : regex)
| Group (r : regex).

(** *** Parsing a pattern source *)

Inductive term : Type :=
| TAtom (r : regex)          (* may take a quantifier *)
| TQuantified (r : regex)    (* already carries one *)
| TAssertion (r : regex).    (* [^] and [$] take none *)

Definition regex_of_term (t : term) : regex :=
  match t with
  | TAtom r | TQuantified r | TAssertion r => r
  end.

(** One open Disjunction: the alternatives already closed by [|] and the
    terms of the current alternative, both most recent first. *)
Record frame : Type := mkFrame {
  closed_alts : list regex;
  cur_terms : list term
}.

Definition empty_frame : frame := mkFrame [] [].

Definition push_term (t : term) (f : frame) : frame :=
  mkFrame (closed_alts f) (t :: cur_terms f).

Definition alternative_of (ts : list term) : regex :=
  fold_left (fun acc t => Cat (regex_of_term t) acc) ts Eps.

Definition disjunction_of (f : frame) : regex :=
  fold_left (fun acc a => Alt a acc) (closed_alts f)
            (alternative_of (cur_terms f)).

Inductive token : Type :=
| TkChar | TkDot | TkCaret | TkDollar | TkStar | TkPlus | TkQuestion
| TkOpen | TkClose | TkBar | TkBackslash | TkBracket | TkBrace.

Definition classify (c : ascii) : token :=
  match c with
  | "."%char => TkDot
  | "^"%char => TkCaret
  | "$"%char => TkDollar
  | "*"%char => TkStar
  | "+"%char => TkPlus
  | "?"%char => TkQuestion
  | "("%char => TkOpen
  | ")"%char => TkClose
  | "|"%char => TkBar
  | "\"%char => TkBackslash
  | "["%char => TkBracket
  | "{"%char => TkBrace
  | _ => TkChar
  end.

(** SyntaxCharacter of the pattern grammar. *)
Definition is_syntax_char (c : ascii) : bool :=
  match c with
  | "^"%char | "$"%char | "\"%char | "."%char | "*"%char | "+"%char
  | "?"%char | "("%char | ")"%char | "["%char | "]"%char | "{"%char
  | "}"%char | "|"%char => true
  | _ => false
  end.

(** The atom denoted by [\c], for the escapes of the fragment. *)
Definition escape (c : ascii) : option regex :=
  match c with
  | "s"%char => Some (ClassSpace false)
  | "S"%char => Some (ClassSpace true)
  | "d"%char => Some (ClassDigit false)
  | "D"%char => Some (ClassDigit true)
  | "w"%char => Some (ClassWord false)
  | "W"%char => Some (ClassWord true)
  | "t"%char => Some (Chr (ascii_of_nat 9))
  | "n"%char => Some (Chr (ascii_of_nat 10))
  | "v"%char => Some (Chr (ascii_of_nat 11))
  | "f"%char => Some (Chr (ascii_of_nat 12))
  | "r"%char => Some (Chr (ascii_of_nat 13))
  | _ => if is_syntax_char c then Some (Chr c) else None
  end.

Inductive construction (R : Type) : Type :=
| Constructed (r : R)
| SyntaxError
| OutsideFragment.
Arguments SyntaxError {R}.
Arguments OutsideFragment {R}.

Inductive quantifier : Type := QStar | QPlus | QOpt.

Definition quantify (q : quantifier) (r : regex) : regex :=
  match q with
  | QStar => Star r
  | QPlus => Plus r
  | QOpt => Opt r
  end.

(** A quantifier applies to the last term of the current alternative.
    With nothing to repeat the pattern is a SyntaxError; [?] after a
    quantifier makes it lazy, which is outside the fragment. *)
Definition apply_quantifier (q : quantifier) (f : frame)
  : construction frame :=
  match cur_terms f with
  | TAtom r :: ts => Constructed (mkFrame (closed_alts f)
                                          (TQuantified (quantify q r) :: ts))
  | TQuantified _ :: _ =>
      match q with
      | QOpt => OutsideFragment
      | _ => SyntaxError
      end
  | TAssertion _ :: _ => SyntaxError
  | [] => SyntaxError
  end.

(** The pattern is read left to right; [f] is the innermost open
    Disjunction and [stack] the enclosing ones. *)
Fixpoint parse_from (src : string) (f : frame) (stack : list frame)
  : construction regex :=
  match src with
  | EmptyString =>
      match stack with
      | [] => Constructed (disjunction_of f)
      | _ :: _ => SyntaxError
      end
  | String c rest =>
      match classify c with
      | TkChar => parse_from rest (push_term (TAtom (Chr c)) f) stack
      | TkDot => parse_from rest (push_term (TAtom AnyChar) f) stack
      | TkCaret => parse_from rest (push_term (TAssertion Bol) f) stack
      | TkDollar => parse_from rest (push_term (TAssertion Eol) f) stack
      | TkStar =>
          match apply_quantifier QStar f with
          | Constructed f' => parse_from rest f' stack
          | SyntaxError => SyntaxError
          | OutsideFragment => OutsideFragment
          end
      | TkPlus =>
          match apply_quantifier QPlus f with
          | Constructed f' => parse_from rest f' stack
          | SyntaxError => SyntaxError
          | OutsideFragment => OutsideFragment
          end
      | TkQuestion =>
          match apply_quantifier QOpt f with
          | Constructed f' => parse_from rest f' stack
          | SyntaxError => SyntaxError
          | OutsideFragment => OutsideFragment
          end
      | TkOpen =>
          match rest with
          | String "?"%char (String ":"%char rest') =>
              parse_from rest' empty_frame (f :: stack)
          | String "?"%char _ => OutsideFragment
          | _ => parse_from rest empty_frame (f :: stack)
          end
      | TkClose =>
          match stack with
          | [] => SyntaxError
          | parent :: stack' =>
              parse_from rest
                (push_term (TAtom (Group (disjunction_of f))) parent) stack'
          end
      | TkBar =>
          parse_from rest
            (mkFrame (alternative_of (cur_terms f) :: closed_alts f) []) stack
      | TkBackslash =>
          match rest with
          | EmptyString => SyntaxError
          | String e rest' =>
              match escape e with
              | Some r => parse_from rest' (push_term (TAtom r) f) stack
              | None => OutsideFragment
              end
          end
      | TkBracket => OutsideFragment
      | TkBrace => OutsideFragment
      end
  end.

Definition parse (src : string) : construction regex :=
  parse_from src empty_frame [].

(** *** Matching

    The backtracking matcher of the language definition, in continuation
    style: [matcher r i s k] matches [r] at index [i], where [s] is the
    input from [i] on, and hands the end index and the rest of the input
    to [k].  All comparisons of characters are under the [i] flag. *)

Definition continuation : Type := nat -> string -> option nat.

Definition match_char (p : ascii -> bool) (i : nat) (s : string)
  (k : continuation) : option nat :=
  match s with
  | String x s' => if p x then k (S i) s' else None
  | EmptyString => None
  end.

Definition or_else (a : option nat) (b : option nat) : option nat :=
  match a with
  | Some e => Some e
  | None => b
  end.

(** The continuation of one iteration of a quantified atom with minimum
    0: an iteration that matched the empty string fails. *)
Definition progress (i : nat) (k : continuation) : continuation :=
  fun i' s' => if Nat.eqb i' i then None else k i' s'.

Fixpoint matcher (r : regex) (i : nat) (s : string) (k : continuation)
  {struct r} : option nat :=
  match r with
  | Eps => k i s
  | Chr c => match_char (fun x => JS.canon_eqb x c) i s k
  | AnyChar => match_char (fun x => negb (JS.is_line_terminator x)) i s k
  | ClassSpace neg => match_char (fun x => xorb neg (JS.is_space x)) i s k
  | ClassDigit neg => match_char (fun x => xorb neg (JS.is_digit x)) i s k
  | ClassWord neg => match_char (fun x => xorb neg (JS.is_word x)) i s k
  | Bol => if Nat.eqb i 0 then k i s else None
  | Eol => match s with EmptyString => k i s | String _ _ => None end
  | Cat r1 r2 => matcher r1 i s (fun i' s' => matcher r2 i' s' k)
  | Alt r1 r2 => or_else (matcher r1 i s k) (matcher r2 i s k)
  | Opt r1 => or_else (matcher r1 i s (progress i k)) (k i s)
  | Star r1 =>
      (fix repeat (fuel : nat) (i : nat) (s : string) : option nat :=
         match fuel with
         | O => k i s
         | S fuel' =>
             or_else (matcher r1 i s (progress i (repeat fuel'))) (k i s)
         end) (String.length s) i s
  | Plus r1 =>
      matcher r1 i s
        (fun i1 s1 =>
           (fix repeat (fuel : nat) (i : nat) (s : string) : option nat :=
              match fuel with
              | O => k i s
              | S fuel' =>
                  or_else (matcher r1 i s (progress i (repeat fuel'))) (k i s)
              end) (String.length s1) i1 s1)
  | Group r1 => matcher r1 i s k
  end.

(** [RegExpBuiltinExec] without the [g] and [y] flags: the first start
    index, from 0, at which the pattern matches; the result is the start
    and end index of the match. *)
Fixpoint exec_from (r : regex) (i : nat) (s : string) : option (nat * nat) :=
  match matcher r i s (fun e _ => Some e) with
  | Some e => Some (i, e)
  | None =>
      match s with
      | EmptyString => None
      | String _ s' => exec_from r (S i) s'
      end
  end.

Definition exec (r : regex) (s : string) : option (nat * nat) :=
  exec_from r 0 s.

(** [RegExp.prototype.test] *)
Definition test (r : regex) (s : string) : bool :=
  match exec r s with
  | Some _ => true
  | None => false
  end.

(** [s.replace(r, '')] for a regular expression without the [g] flag: the
    first match is removed. *)
Definition replace_empty (r : regex) (s : string) : string :=
  match exec r s with
  | Some (b, e) => JS.take b s ++ JS.drop e s
  | None => s
  end.

(** *** The pattern of a display name without syntax characters *)

(** The terms the parser pushes for a run of pattern characters. *)
Fixpoint plain_terms (name : string) (acc : list term) : list term :=
  match name with
  | EmptyString => acc
  | String c name' => plain_terms name' (TAtom (Chr c) :: acc)
  end.

(** The characters of [name] in sequence, then [tail]. *)
Fixpoint chars (name : string) (tail : regex) : regex :=
  match name with
  | EmptyString => tail
  | String c name' => Cat (Chr c) (chars name' tail)
  end.

(** What the source [^(@?name\s)] denotes when [name] is read as
    pattern characters only. *)
Definition mention_regex (name : string) : regex :=
  Cat Bol
    (Cat (Group (Cat (Opt (Chr "@"))
                     (chars name (Cat (ClassSpace false) Eps))))
         Eps).

End Regex.

(* ================================================================= *)
(** ** The regular-expression engine as seen by the bot

    The bot only constructs a pattern with the [i] flag, tests a string
    against it and removes its first match.  The handlers are written
    against this interface; [Fragment] is the engine defined above. *)

Class RegExpEngine : Type := {
  RegExp : Type;
  (** [new RegExp(source, 'i')] *)
  RegExp_i : string -> Regex.construction RegExp;
  (** [re.test(s)] *)
  RegExp_test : RegExp -> string -> bool;
  (** [s.replace(re, '')] *)
  String_replace : string -> RegExp -> string
}.

#[export] Instance Fragment : RegExpEngine := {|
  RegExp := Regex.regex;
  RegExp_i := Regex.parse;
  RegExp_test := Regex.test;
  String_replace := fun s re => Regex.replace_empty re s
|}.

(* ================================================================= *)
(** ** Data model *)

Inductive exn : Type :=
| TypeError
| RegExpSyntaxError
| Thrown (what : string).

(** How a call ends.  [Unmodelled] is the end of a call that constructed a
    pattern outside the engine's fragment. *)
Inductive completion (A : Type) : Type :=
| Normal (a : A)
| Throw (e : exn)
| Unmodelled.
Arguments Throw {A} e.
Arguments Unmodelled {A}.

(** A user record or a service-identity (bot) record. *)
Record Sender : Type := mkSender {
  sender_id : option string;
  sender_name : option string
}.

Record Channel : Type := mkChannel {
  channel_name : option string
}.

Record MetaMsg : Type := mkMetaMsg {
  text : option string;
  user : option Sender;
  bot : option Sender;
  channel : option Channel;
  subtype : option string;
  topic : option string;
  isDM : bool
}.

Definition set_text (m : MetaMsg) (t : option string) : MetaMsg :=
  mkMetaMsg t (user m) (bot m) (channel m) (subtype m) (topic m) (isDM m).

Record Self : Type := mkSelf {
  self_id : option string;
  self_name : option string;
  botId : option string
}.

Record Team : Type := mkTeam {
  team_name : option string
}.

(** An entry of [identity.users]: its [id] and its [profile.bot_id]. *)
Record UserEntry : Type := mkUserEntry {
  user_id : option string;
  profile_bot_id : option string
}.

Record Identity : Type := mkIdentity {
  identity_self : Self;
  identity_team : Team;
  identity_users : list UserEntry;
  identity_groups : list Channel
}.

Record Config : Type := mkConfig {
  config_defaultChannel : option string;
  config_autoReconnect : bool
}.

Inductive call_result : Type :=
| Returns
| Throws (e : exn).

(** A plugin instance: whether it has an [init] function and how a call
    of it ends; and its [processMessage], which receives the event object
    and may mutate it before it returns or throws. *)
Record PluginInstance : Type := mkPlugin {
  plugin_init : option call_result;
  plugin_processMessage : MetaMsg -> MetaMsg * call_result
}.

(** A plugin definition: the class [name] and what [new plugin(bot)]
    gives. *)
Record PluginClass : Type := mkPluginClass {
  plugin_name : string;
  plugin_new : exn + PluginInstance
}.

(** An entry of the plugins directory: what
    [fs.lstatSync(path).isDirectory()] gives, or the exception
    [lstatSync] throws; and what [require(path)] gives (a falsy module
    is [None]), or the exception it throws. *)
Record DirEntry : Type := mkDirEntry {
  isDirectory : exn + bool;
  required : exn + option PluginClass
}.

Inductive Effect : Type :=
| Debug (line : string)
| PluginCall (p : PluginInstance) (m : MetaMsg).

Record LychiiBot : Type := mkBot {
  self : option Self;
  team : option Team;
  users : option (list UserEntry);
  defaultChannel : option Channel;
  plugins : list PluginInstance
}.

(** The state after the constructor. *)
Definition new_LychiiBot : LychiiBot := mkBot None None None None [].

(** The run of a method: how it ended, the effects it had, and the state
    it left in the object it mutates (the bot or the event). *)
Record Run (S : Type) : Type := mkRun {
  completed : completion unit;
  effects : list Effect;
  after : S
}.

Definition done {S} (s : S) : Run S := mkRun (Normal tt) [] s.
Definition throw {S} (e : exn) (s : S) : Run S := mkRun (Throw e) [] s.
Definition debug {S} (line : string) (s : S) : Run S :=
  mkRun (Normal tt) [Debug line] s.

(** Sequencing: the rest runs only after a normal completion. *)
Definition and_then {S} (r : Run S) (rest : S -> Run S) : Run S :=
  match completed r with
  | Normal _ =>
      let r' := rest (after r) in
      mkRun (completed r') (effects r ++ effects r') (after r')
  | _ => r
  end.

Notation "r ;; rest" := (and_then r rest)
  (at level 61, right associativity).

(** The plugin calls among some effects, in order. *)
Fixpoint calls (es : list Effect) : list PluginInstance :=
  match es with
  | [] => []
  | PluginCall p _ :: es' => p :: calls es'
  | Debug _ :: es' => calls es'
  end.

(* ================================================================= *)
(** ** Plugin registry *)

Definition push_plugin (this : LychiiBot) (p : PluginInstance) : LychiiBot :=
  mkBot (self this) (team this) (users this) (defaultChannel this)
        (plugins this ++ [p]).

Definition registerPlugin (this : LychiiBot) (plugin : PluginClass)
  : Run LychiiBot :=
  debug ("register plugin: " ++ plugin_name plugin) this ;; fun this =>
  match plugin_new plugin with
  | inl e => throw e this
  | inr pluginInstance =>
      let this := push_plugin this pluginInstance in
      match plugin_init pluginInstance with
      | Some (Throws e) => throw e this
      | Some Returns => done this
      | None => done this
      end
  end.

(** [defs.map(f)] for an [f] that mutates the bot: the calls are made in
    order and a throw ends the iteration. *)
Fixpoint for_each {A} (f : LychiiBot -> A -> Run LychiiBot)
  (xs : list A) (this : LychiiBot) : Run LychiiBot :=
  match xs with
  | [] => done this
  | x :: xs' => f this x ;; for_each f xs'
  end.

(** [loadPlugins]: [modulePlugins] is what [require('./plugins')]
    yields.  Without a module list the call only hands its callback to
    [fs.readdir], which is asynchronous: the call returns with nothing
    registered, and the callback runs later, as [readdir_callback]. *)
Definition loadPlugins (modulePlugins : option (list PluginClass))
  (this : LychiiBot) : Run LychiiBot :=
  match modulePlugins with
  | Some plugins => for_each registerPlugin plugins this
  | None => done this
  end.

(** The body of [files.map((file) => ...)] in the callback. *)
Definition scan_entry (this : LychiiBot) (file : DirEntry)
  : Run LychiiBot :=
  match isDirectory file with
  | inl e => throw e this
  | inr false => done this
  | inr true =>
      match required file with
      | inl e => throw e this
      | inr None => done this
      | inr (Some plugin) => registerPlugin this plugin
      end
  end.

(** The callback [(err, files) => ...] that [loadPlugins] hands to
    [fs.readdir], run on the bot as it is when the listing arrives:
    [result] is the error, or the listing if there is one.  An exception
    that leaves it is an uncaught exception of the callback, not of
    [loadPlugins]. *)
Definition readdir_callback (result : exn + option (list DirEntry))
  (this : LychiiBot) : Run LychiiBot :=
  match result with
  | inl err => throw err this
  | inr None => done this
  | inr (Some files) => for_each scan_entry files this
  end.

(* ================================================================= *)
(** ** Identity context *)

Definition onAuthenticated (config : Config) (this : LychiiBot)
  (identity : Identity) : Run LychiiBot :=
  let self0 := identity_self identity in
  let users0 := identity_users identity in
  (* get bot_id *)
  let bot_id :=
    fold_left
      (fun acc u =>
         if JS.strict_eq (user_id u) (self_id self0)
         then profile_bot_id u else acc)
      users0 (botId self0) in
  let self1 := mkSelf (self_id self0) (self_name self0) bot_id in
  (* default channel for post bot status *)
  let chan :=
    fold_left
      (fun acc group =>
         if JS.strict_eq (channel_name group) (config_defaultChannel config)
         then Some group else acc)
      (identity_groups identity) (defaultChannel this) in
  let this :=
    mkBot (Some self1) (Some (identity_team identity)) (Some users0)
          chan (plugins this) in
  debug ("login to team " ++ JS.ToString (team_name (identity_team identity))
         ++ " as " ++ JS.ToString (self_name self1)) this ;; fun this =>
  match defaultChannel this with
  | None => throw TypeError this
  | Some c => debug ("default channel: " ++ JS.ToString (channel_name c)) this
  end.

(* ================================================================= *)
(** ** Acceptance filter, normaliser, classifier and dispatcher *)

Section Dispatcher.

Context {engine : RegExpEngine}.

(** [sender && sender.id === this.self.<own>] *)
Definition sent_by (sender : option Sender) (own : Self -> option string)
  (this : LychiiBot) : completion bool :=
  match sender with
  | None => Normal false
  | Some s =>
      match self this with
      | None => Throw TypeError
      | Some me => Normal (JS.strict_eq (sender_id s) (own me))
      end
  end.

Definition isAcceptable (this : LychiiBot) (metaMsg : MetaMsg)
  (selfRecognizeRegex : RegExp) : completion bool :=
  (* ignore that sent from self *)
  match sent_by (user metaMsg) self_id this with
  | Normal true => Normal false
  | Normal false =>
      match sent_by (bot metaMsg) botId this with
      | Normal true => Normal false
      | Normal false =>
          (* accept direct message *)
          if isDM metaMsg then Normal true
          (* ignore that not mention self *)
          else Normal (RegExp_test selfRecognizeRegex
                         (JS.ToString (text metaMsg)))
      | Throw e => Throw e
      | Unmodelled => Unmodelled
      end
  | Throw e => Throw e
  | Unmodelled => Unmodelled
  end.

Definition trimMessage (metaMsg : MetaMsg) (selfRecognizeRegex : RegExp)
  : Run MetaMsg :=
  match text metaMsg with
  | None => throw TypeError metaMsg
  | Some t =>
      let trimmed := JS.trim t in
      (* clean self annotation *)
      done (set_text metaMsg (Some (String_replace trimmed selfRecognizeRegex)))
  end.

Definition call_plugin (plugin : PluginInstance) (metaMsg : MetaMsg)
  : Run MetaMsg :=
  let (metaMsg', result) := plugin_processMessage plugin metaMsg in
  mkRun (match result with
         | Returns => Normal tt
         | Throws e => Throw e
         end)
        [PluginCall plugin metaMsg] metaMsg'.

(** [plugins.map((plugin) => plugin.processMessage(metaMsg))] *)
Fixpoint fan_out (ps : list PluginInstance) (metaMsg : MetaMsg)
  : Run MetaMsg :=
  match ps with
  | [] => done metaMsg
  | plugin :: ps' => call_plugin plugin metaMsg ;; fan_out ps'
  end.

Definition processMessage (this : LychiiBot) (metaMsg : MetaMsg)
  : Run MetaMsg :=
  debug ("processing: " ++ JS.ToString (text metaMsg)) metaMsg ;;
  fan_out (plugins this).

(** [user || bot || {}] *)
Definition effective_user (metaMsg : MetaMsg) : Sender :=
  match user metaMsg with
  | Some u => u
  | None =>
      match bot metaMsg with
      | Some b => b
      | None => mkSender None None
      end
  end.

(** [subtype || 'message']: the empty string is falsy too. *)
Definition effective_subtype (metaMsg : MetaMsg) : string :=
  match subtype metaMsg with
  | Some EmptyString => "message"
  | Some s => s
  | None => "message"
  end.

(** A debug line that reads [channel.name]. *)
Definition debug_in_channel (metaMsg : MetaMsg)
  (line : string -> string) : Run MetaMsg :=
  match channel metaMsg with
  | None => throw TypeError metaMsg
  | Some c => debug (line (JS.ToString (channel_name c))) metaMsg
  end.

Definition is_join (s : string) : bool :=
  String.eqb s "channel_join" || String.eqb s "group_join".
Definition is_leave (s : string) : bool :=
  String.eqb s "channel_leave" || String.eqb s "group_leave".
Definition is_topic (s : string) : bool :=
  String.eqb s "channel_topic" || String.eqb s "group_topic".

(** The part of [onIncomingMessage] after the event is trimmed. *)
Definition classify_event (this : LychiiBot) (metaMsg : MetaMsg)
  : Run MetaMsg :=
  let user_name := JS.ToString (sender_name (effective_user metaMsg)) in
  let subtype := effective_subtype metaMsg in
  if is_join subtype then
    debug_in_channel metaMsg
      (fun channel => user_name ++ " has joined " ++ channel)
  else if is_leave subtype then
    debug_in_channel metaMsg
      (fun channel => user_name ++ " has left " ++ channel)
  else if is_topic subtype then
    debug_in_channel metaMsg
      (fun channel => user_name ++ " set the topic in " ++ channel
                      ++ " to " ++ JS.ToString (topic metaMsg))
  else
    debug_in_channel metaMsg
      (fun channel => "received from " ++ user_name ++ " in channel "
                      ++ channel ++ ": " ++ JS.ToString (text metaMsg)) ;;
    processMessage this.

(** The source of [selfRecognizeRegex]. *)
Definition selfRecognizeSource (name : option string) : string :=
  "^(@?" ++ JS.ToString name ++ "\s)".

Definition onIncomingMessage (this : LychiiBot) (metaMsg : MetaMsg)
  : Run MetaMsg :=
  match self this with
  | None => throw TypeError metaMsg
  | Some me =>
      (* filter accepted message *)
      match RegExp_i (selfRecognizeSource (self_name me)) with
      | Regex.SyntaxError => throw RegExpSyntaxError metaMsg
      | Regex.OutsideFragment => mkRun Unmodelled [] metaMsg
      | Regex.Constructed selfRecognizeRegex =>
          match isAcceptable this metaMsg selfRecognizeRegex with
          | Normal false => done metaMsg
          | Normal true =>
              trimMessage metaMsg selfRecognizeRegex ;; classify_event this
          | Throw e => throw e metaMsg
          | Unmodelled => mkRun Unmodelled [] metaMsg
          end
      end
  end.

End Dispatcher.

(* ================================================================= *)
(** ** The properties the specification names, in its own words *)

Module Spec.

(** [strip_prefix p s]: the rest of [s] after a prefix equal to [p] up
    to case, if [s] has one. *)
Fixpoint strip_prefix (p s : string) : option string :=
  match p, s with
  | EmptyString, _ => Some s
  | String a p', String b s' =>
      if JS.canon_eqb b a then strip_prefix p' s' else None
  | String _ _, EmptyString => None
  end.

(** [s] begins, up to case, with [p] followed by whitespace. *)
Definition begins_with (p s : string) : bool :=
  match strip_prefix p s with
  | Some (String c _) => JS.is_space c
  | _ => false
  end.

(** The text begins (case-insensitive, optional leading at-sign) with the
    bot's display name followed by whitespace. *)
Definition begins_with_mention (name text : string) : bool :=
  begins_with name text || begins_with (String "@" name) text.

Fixpoint last_char (s : string) : option ascii :=
  match s with
  | EmptyString => None
  | String c EmptyString => Some c
  | String _ s' => last_char s'
  end.

(** No leading and no trailing whitespace. *)
Definition is_trimmed (s : string) : bool :=
  match s with
  | EmptyString => true
  | String c _ =>
      negb (JS.is_space c)
      && match last_char s with
         | Some l => negb (JS.is_space l)
         | None => true
         end
  end.

(** A display name no character of which has a meaning in a pattern. *)
Fixpoint is_plain (name : string) : bool :=
  match name with
  | EmptyString => true
  | String c name' => negb (Regex.is_syntax_char c) && is_plain name'
  end.

(** The sender is the bot itself: steps 1 and 2 of the filter. *)
Definition self_authored (me : Self) (metaMsg : MetaMsg) : bool :=
  match user metaMsg with
  | Some u => JS.strict_eq (sender_id u) (self_id me)
  | None => false
  end
  || match bot metaMsg with
     | Some b => JS.strict_eq (sender_id b) (botId me)
     | None => false
     end.

(** The subtypes of the join, leave and topic-change branches. *)
Definition log_only_subtype (s : string) : bool :=
  existsb (String.eqb s)
    ["channel_join"; "group_join"; "channel_leave"; "group_leave";
     "channel_topic"; "group_topic"].

End Spec.

(* ================================================================= *)
(** ** Concrete bots, events and plugins *)

Module Examples.

Definition lychii : Self := mkSelf (Some "U1") (Some "lychii") (Some "B1").

(** A bot whose display name holds a period. *)
Definition my_bot : Self := mkSelf (Some "U1") (Some "my.bot") (Some "B1").

Definition general : Channel := mkChannel (Some "general").
Definition random : Channel := mkChannel (Some "random").

Definition alice : Sender := mkSender (Some "U2") (Some "alice").
Definition lychii_user : Sender := mkSender (Some "U1") (Some "lychii").

Definition message_from (u : option Sender) (t : option string)
  (sub : option string) (dm : bool) : MetaMsg :=
  mkMetaMsg t u None (Some general) sub None dm.

(** A plugin that returns, one that throws, and one that rewrites the
    text of the event. *)
Definition quiet : PluginInstance :=
  mkPlugin None (fun m => (m, Returns)).
Definition faulty : PluginInstance :=
  mkPlugin (Some Returns) (fun m => (m, Throws (Thrown "boom"))).
Definition shouting : PluginInstance :=
  mkPlugin (Some Returns) (fun m => (set_text m (Some "HI"), Returns)).
Definition bad_init : PluginInstance :=
  mkPlugin (Some (Throws (Thrown "init failed"))) (fun m => (m, Returns)).

Definition Quiet : PluginClass := mkPluginClass "Quiet" (inr quiet).
Definition Faulty : PluginClass := mkPluginClass "Faulty" (inr faulty).
Definition Shouting : PluginClass := mkPluginClass "Shouting" (inr shouting).
Definition BadInit : PluginClass := mkPluginClass "BadInit" (inr bad_init).

Definition bot_with (me : Self) (ps : list PluginInstance) : LychiiBot :=
  mkBot (Some me) (Some (mkTeam (Some "team"))) (Some []) (Some general) ps.

Definition config : Config := mkConfig (Some "general") false.

(** An authentication payload none of whose groups is named [general]. *)
Definition identity_without_general : Identity :=
  mkIdentity (mkSelf (Some "U1") (Some "lychii") None)
             (mkTeam (Some "team"))
             [mkUserEntry (Some "U1") (Some "B1")]
             [random].

Definition identity_with_general : Identity :=
  mkIdentity (mkSelf (Some "U1") (Some "lychii") None)
             (mkTeam (Some "team"))
             [mkUserEntry (Some "U2") None; mkUserEntry (Some "U1") (Some "B1")]
             [random; general].

End Examples.

(* ================================================================= *)
(** ** Plugin discovery *)

(** The exception an entry of the listing makes the scan throw, if
    any: that of [lstatSync], or that of [require] of a directory. *)
Definition entry_exception (file : DirEntry) : option exn :=
  match isDirectory file with
  | inl e => Some e
  | inr false => None
  | inr true =>
      match required file with
      | inl e => Some e
      | inr _ => None
      end
  end.

(** The plugin definitions a directory listing yields: the modules of
    the entries that are directories and whose [require] is truthy, in
    the order of the listing. *)
Fixpoint discovered (files : list DirEntry) : list PluginClass :=
  match files with
  | [] => []
  | file :: files' =>
      match isDirectory file, required file with
      | inr true, inr (Some plugin) => plugin :: discovered files'
      | _, _ => discovered files'
      end
  end.

(** What one plugin call does to the event object. *)
Definition event_after (metaMsg : MetaMsg) (plugin : PluginInstance)
  : MetaMsg :=
  fst (plugin_processMessage plugin metaMsg).

(** The calls of the plugins [ps] one after the other, each with the
    event as the plugins before it left it. *)
Fixpoint threaded_calls (ps : list PluginInstance) (metaMsg : MetaMsg)
  : list Effect :=
  match ps with
  | [] => []
  | p :: ps' =>
      PluginCall p metaMsg :: threaded_calls ps' (event_after metaMsg p)
  end.

(** [i' s'] is a position of the input that starts at index [i] with
    [s]: not before [i], and as far from the end as [s'] is long. *)
Definition position_of (i : nat) (s : string) (i' : nat) (s' : string)
  : Prop :=
  i <= i' /\ i' + String.length s' = i + String.length s.

(** A continuation is reached only at positions of the input. *)
Definition reaches (i : nat) (s : string) (k : Regex.continuation)
  (e : nat) : Prop :=
  exists i' s', k i' s' = Some e /\ position_of i s i' s'.

(** [after] differs from [before] at most by plugins appended to the
    registry. *)
Definition extends_registry (before after : LychiiBot) : Prop :=
  (exists added, plugins after = (plugins before ++ added)%list)
  /\ self after = self before
  /\ team after = team before
  /\ users after = users before
  /\ defaultChannel after = defaultChannel before.

Module MoreExamples.

(** A plugin whose constructor throws. *)
Definition Unbuildable : PluginClass :=
  mkPluginClass "Unbuildable" (inl (Thrown "constructor failed")).

(** A listing with a plain file, a directory whose module is falsy and
    two plugin directories. *)
Definition plugins_dir : list DirEntry :=
  [mkDirEntry (inr true) (inr (Some Examples.Quiet));
   mkDirEntry (inr false) (inr (Some Examples.Faulty));
   mkDirEntry (inr true) (inr None);
   mkDirEntry (inr true) (inr (Some Examples.Shouting))].

(** A directory without an entry point: [require] of it throws. *)
Definition broken_dir : DirEntry :=
  mkDirEntry (inr true) (inl (Thrown "Cannot find module")).

(** A bot whose display name holds an open parenthesis. *)
Definition smiley : Self := mkSelf (Some "U1") (Some "bot:(") (Some "B1").

(** A payload with two directory entries of the bot's id. *)
Definition identity_with_duplicates : Identity :=
  mkIdentity (mkSelf (Some "U1") (Some "lychii") (Some "B0"))
             (mkTeam (Some "team"))
             [mkUserEntry (Some "U1") (Some "B1");
              mkUserEntry (Some "U1") (Some "B2");
              mkUserEntry (Some "U2") (Some "B3")]
             [Examples.general; Examples.random].

(** A message of the bot's own service identity. *)
Definition own_bot_message : MetaMsg :=
  mkMetaMsg (Some "lychii hi") None
            (Some (mkSender (Some "B1") (Some "lychii")))
            (Some Examples.general) (Some "bot_message") None true.

(** A message that mentions the bot but has no channel. *)
Definition channelless : MetaMsg :=
  mkMetaMsg (Some "lychii hi") (Some Examples.alice) None None None None
            false.

End MoreExamples.

(* ================================================================= *)
(** * Properties *)

Unset Implicit Arguments.

(** ** Runs and effects *)

Lemma calls_app (es1 es2 : list Effect) :
  calls (es1 ++ es2) = (calls es1 ++ calls es2)%list.
Proof.
  induction es1 as [|[line|p m] es1 IH]; simpl; [reflexivity|assumption|].
  now rewrite IH.
Qed.

Lemma and_then_normal {S} (r : Run S) (rest : S -> Run S) :
  completed r = Normal tt ->
  r ;; rest = mkRun (completed (rest (after r)))
                    (effects r ++ effects (rest (after r)))%list
                    (after (rest (after r))).
Proof. unfold and_then. now intros ->. Qed.

Lemma and_then_abrupt {S} (r : Run S) (rest : S -> Run S) :
  (forall u, completed r <> Normal u) -> r ;; rest = r.
Proof.
  unfold and_then. destruct (completed r) as [u| |]; intros H;
    [now destruct (H u)|reflexivity|reflexivity].
Qed.

Lemma strict_eq_refl (a : option string) : JS.strict_eq a a = true.
Proof. destruct a; simpl; [apply String.eqb_refl|reflexivity]. Qed.

Section Generic.

Context {engine : RegExpEngine}.

(** *** Fan-out *)

Lemma call_plugin_calls (p : PluginInstance) (m : MetaMsg) :
  calls (effects (call_plugin p m)) = [p].
Proof. unfold call_plugin. now destruct (plugin_processMessage p m). Qed.

Lemma call_plugin_completed (p : PluginInstance) (m : MetaMsg) :
  completed (call_plugin p m)
  = match snd (plugin_processMessage p m) with
    | Returns => Normal tt
    | Throws e => Throw e
    end.
Proof. unfold call_plugin. now destruct (plugin_processMessage p m). Qed.

Lemma call_plugin_after (p : PluginInstance) (m : MetaMsg) :
  after (call_plugin p m) = fst (plugin_processMessage p m).
Proof. unfold call_plugin. now destruct (plugin_processMessage p m). Qed.

Lemma fan_out_cons (p : PluginInstance) (ps : list PluginInstance)
  (m : MetaMsg) :
  fan_out (p :: ps) m = call_plugin p m ;; fan_out ps.
Proof. reflexivity. Qed.

(** The fan-out never ends [Unmodelled]. *)
Lemma fan_out_modelled (ps : list PluginInstance) (m : MetaMsg) :
  completed (fan_out ps m) <> Unmodelled.
Proof.
  revert m. induction ps as [|p ps IH]; intros m; [simpl; discriminate|].
  rewrite fan_out_cons. unfold and_then.
  rewrite call_plugin_completed.
  destruct (snd (plugin_processMessage p m)) eqn:Hp; simpl.
  - apply IH.
  - rewrite call_plugin_completed, Hp. discriminate.
Qed.

(** The plugins called are an initial segment of the list, in its order;
    all of it when the fan-out completes normally. *)
Lemma fan_out_calls_prefix (ps : list PluginInstance) (m : MetaMsg) :
  exists n, calls (effects (fan_out ps m)) = firstn n ps.
Proof.
  revert m. induction ps as [|p ps IH]; intros m.
  - now exists 0.
  - rewrite fan_out_cons. unfold and_then.
    rewrite call_plugin_completed.
    destruct (snd (plugin_processMessage p m)) eqn:Hp.
    + destruct (IH (after (call_plugin p m))) as [n Hn].
      exists (S n). simpl. rewrite calls_app, call_plugin_calls, Hn.
      reflexivity.
    + exists 1. now rewrite call_plugin_calls.
Qed.

Lemma fan_out_calls_normal (ps : list PluginInstance) (m : MetaMsg) :
  completed (fan_out ps m) = Normal tt ->
  calls (effects (fan_out ps m)) = ps.
Proof.
  revert m. induction ps as [|p ps IH]; intros m; [reflexivity|].
  rewrite fan_out_cons. unfold and_then.
  rewrite call_plugin_completed.
  destruct (snd (plugin_processMessage p m)) eqn:Hp; simpl.
  - intros H. rewrite calls_app, call_plugin_calls, (IH _ H). reflexivity.
  - rewrite call_plugin_completed, Hp. discriminate.
Qed.

Lemma fan_out_app (pre post : list PluginInstance) (m : MetaMsg) :
  fan_out (pre ++ post) m = fan_out pre m ;; fan_out post.
Proof.
  revert m. induction pre as [|p pre IH]; intros m.
  - simpl. unfold and_then, done. simpl. now destruct (fan_out post m).
  - simpl app. rewrite !fan_out_cons. unfold and_then at 1 3.
    destruct (completed (call_plugin p m)) eqn:Hc.
    + rewrite IH. unfold and_then. simpl.
      destruct (completed (fan_out pre (after (call_plugin p m)))) eqn:Hf;
        simpl; rewrite ?Hf, ?app_assoc; reflexivity.
    + unfold and_then. simpl. now rewrite Hc.
    + unfold and_then. simpl. now rewrite Hc.
Qed.

Lemma processMessage_calls (this : LychiiBot) (m : MetaMsg) :
  calls (effects (processMessage this m))
  = calls (effects (fan_out (plugins this) m)).
Proof. reflexivity. Qed.

Lemma processMessage_completed (this : LychiiBot) (m : MetaMsg) :
  completed (processMessage this m) = completed (fan_out (plugins this) m).
Proof. reflexivity. Qed.

End Generic.

(** ** Sequencing *)

Lemma run_eta {S} (r : Run S) : mkRun (completed r) (effects r) (after r) = r.
Proof. now destruct r. Qed.

Lemma done_and_then {S} (s : S) (rest : S -> Run S) : done s ;; rest = rest s.
Proof. unfold and_then, done. simpl. apply run_eta. Qed.

Lemma and_then_assoc {S} (r : Run S) (f g : S -> Run S) :
  (r ;; f) ;; g = r ;; (fun s => f s ;; g).
Proof.
  unfold and_then.
  destruct (completed r) eqn:Hr; simpl; rewrite ?Hr; try reflexivity.
  destruct (completed (f (after r))) eqn:Hf; simpl; rewrite ?Hf;
    try reflexivity.
  now rewrite app_assoc.
Qed.

(** ** Registration *)

Lemma for_each_app {A} (f : LychiiBot -> A -> Run LychiiBot)
  (xs ys : list A) (this : LychiiBot) :
  for_each f (xs ++ ys) this = for_each f xs this ;; for_each f ys.
Proof.
  revert this. induction xs as [|x xs IH]; intros this; simpl.
  - now rewrite done_and_then.
  - rewrite and_then_assoc. unfold and_then at 1 2.
    destruct (completed (f this x)); try reflexivity.
    now rewrite IH.
Qed.

Lemma registerPlugin_completed (this : LychiiBot) (d : PluginClass) :
  completed (registerPlugin this d)
  = match plugin_new d with
    | inl e => Throw e
    | inr inst =>
        match plugin_init inst with
        | Some (Throws e) => Throw e
        | _ => Normal tt
        end
    end.
Proof.
  unfold registerPlugin, and_then. simpl.
  destruct (plugin_new d) as [e|inst]; [reflexivity|].
  now destruct (plugin_init inst) as [[|e]|].
Qed.

Lemma registerPlugin_after (this : LychiiBot) (d : PluginClass) :
  after (registerPlugin this d)
  = match plugin_new d with
    | inl _ => this
    | inr inst => push_plugin this inst
    end.
Proof.
  unfold registerPlugin, and_then. simpl.
  destruct (plugin_new d) as [e|inst]; [reflexivity|].
  now destruct (plugin_init inst) as [[|e]|].
Qed.

Lemma registerPlugin_effects (this : LychiiBot) (d : PluginClass) :
  effects (registerPlugin this d)
  = [Debug ("register plugin: " ++ plugin_name d)].
Proof.
  unfold registerPlugin, and_then. simpl.
  destruct (plugin_new d) as [e|inst]; [reflexivity|].
  now destruct (plugin_init inst) as [[|e]|].
Qed.

(** A registration that completes instantiated every definition and
    appended the instances in the order of the definitions. *)
Lemma register_all_normal (defs : list PluginClass) (this : LychiiBot) :
  completed (for_each registerPlugin defs this) = Normal tt ->
  exists instances,
    map plugin_new defs = map inr instances
    /\ plugins (after (for_each registerPlugin defs this))
       = (plugins this ++ instances)%list.
Proof.
  revert this. induction defs as [|d defs IH]; intros this; cbn [for_each].
  - intros _. exists []. simpl. now rewrite app_nil_r.
  - unfold and_then. rewrite registerPlugin_completed, registerPlugin_after.
    destruct (plugin_new d) as [e|inst] eqn:Hd; cbn iota beta.
    + rewrite registerPlugin_completed, Hd. discriminate.
    + destruct (plugin_init inst) as [[|e]|] eqn:Hi; cbn iota beta;
        cbn [completed].
      * intros H. destruct (IH _ H) as (insts & Hm & Hp).
        exists (inst :: insts). cbn [map after]. rewrite Hm, Hp, Hd. simpl.
        now rewrite <- app_assoc.
      * rewrite registerPlugin_completed, Hd, Hi. discriminate.
      * intros H. destruct (IH _ H) as (insts & Hm & Hp).
        exists (inst :: insts). cbn [map after]. rewrite Hm, Hp, Hd. simpl.
        now rewrite <- app_assoc.
Qed.

(** ** Identity *)

Lemma no_group_matches (name : option string) (groups : list Channel)
  (c0 : option Channel) :
  forallb (fun g => negb (JS.strict_eq (channel_name g) name)) groups = true ->
  fold_left
    (fun acc group =>
       if JS.strict_eq (channel_name group) name then Some group else acc)
    groups c0 = c0.
Proof.
  revert c0. induction groups as [|g groups IH]; intros c0; simpl.
  - reflexivity.
  - intros H. apply andb_prop in H. destruct H as [Hg Hgs].
    apply negb_true_iff in Hg. rewrite Hg. now apply IH.
Qed.

(** Without a group of the configured name a fresh bot ends
    [onAuthenticated] by reading [name] of the absent default channel. *)
Lemma onAuthenticated_without_default_channel (config : Config)
  (identity : Identity) :
  forallb
    (fun g => negb (JS.strict_eq (channel_name g)
                                 (config_defaultChannel config)))
    (identity_groups identity) = true ->
  completed (onAuthenticated config new_LychiiBot identity) = Throw TypeError
  /\ defaultChannel (after (onAuthenticated config new_LychiiBot identity))
     = None.
Proof.
  intros H. unfold onAuthenticated, and_then. simpl.
  rewrite (no_group_matches _ _ None H). simpl. split; reflexivity.
Qed.

Example onAuthenticated_resolves_identity :
  let r := onAuthenticated Examples.config new_LychiiBot
             Examples.identity_with_general in
  completed r = Normal tt
  /\ self (after r) = Some Examples.lychii
  /\ defaultChannel (after r) = Some Examples.general
  /\ effects r = [Debug "login to team team as lychii";
                  Debug "default channel: general"].
Proof. repeat split. Qed.

(** ** Strings *)

Lemma trimEnd_fixed (s : string) :
  match Spec.last_char s with
  | Some l => negb (JS.is_space l)
  | None => true
  end = true ->
  JS.trimEnd s = s.
Proof.
  induction s as [|c s IH]; [reflexivity|].
  destruct s as [|d s'].
  - simpl. intros H. apply negb_true_iff in H. now rewrite H.
  - intros H. change (Spec.last_char (String c (String d s')))
      with (Spec.last_char (String d s')) in H.
    specialize (IH H).
    change (JS.trimEnd (String c (String d s')))
      with (match JS.trimEnd (String d s') with
            | EmptyString =>
                if JS.is_space c then EmptyString else String c EmptyString
            | t => String c t
            end).
    now rewrite IH.
Qed.

(** [trim] leaves a string without leading and trailing whitespace as it
    is. *)
Lemma trim_fixed (s : string) : Spec.is_trimmed s = true -> JS.trim s = s.
Proof.
  destruct s as [|c s]; [reflexivity|].
  unfold Spec.is_trimmed, JS.trim. intros H.
  apply andb_prop in H. destruct H as [Hc Hl].
  apply negb_true_iff in Hc.
  change (JS.trimStart (String c s))
    with (if JS.is_space c then JS.trimStart s else String c s).
  rewrite Hc. now apply trimEnd_fixed.
Qed.

(** ** The pattern of a plain display name *)

Lemma classify_plain (c : ascii) :
  Regex.is_syntax_char c = false -> Regex.classify c = Regex.TkChar.
Proof.
  destruct c as [[] [] [] [] [] [] [] []]; simpl; intros H;
    first [reflexivity | discriminate H].
Qed.

Lemma parse_from_plain (name rest : string) (f : Regex.frame)
  (stack : list Regex.frame) :
  Spec.is_plain name = true ->
  Regex.parse_from (name ++ rest) f stack
  = Regex.parse_from rest
      (Regex.mkFrame (Regex.closed_alts f)
                     (Regex.plain_terms name (Regex.cur_terms f)))
      stack.
Proof.
  revert f. induction name as [|c name IH]; intros f H.
  - now destruct f.
  - simpl in H. apply andb_prop in H. destruct H as [Hc Hn].
    apply negb_true_iff in Hc.
    change ((String c name ++ rest)%string) with (String c (name ++ rest)).
    cbn [Regex.parse_from]. rewrite (classify_plain _ Hc).
    rewrite (IH _ Hn). reflexivity.
Qed.

Lemma cat_plain_terms (name : string) (acc : list Regex.term)
  (tail : Regex.regex) :
  fold_left (fun a t => Regex.Cat (Regex.regex_of_term t) a)
            (Regex.plain_terms name acc) tail
  = fold_left (fun a t => Regex.Cat (Regex.regex_of_term t) a)
              acc (Regex.chars name tail).
Proof.
  revert acc tail. induction name as [|c name IH]; intros acc tail;
    [reflexivity|].
  simpl. now rewrite IH.
Qed.

(** For a display name without syntax characters the constructor
    succeeds, and the pattern is the name read literally. *)
Lemma parse_plain_name (name : string) :
  Spec.is_plain name = true ->
  Regex.parse (selfRecognizeSource (Some name))
  = Regex.Constructed (Regex.mention_regex name).
Proof.
  intros H. unfold selfRecognizeSource, Regex.parse, JS.ToString.
  change (("^(@?" ++ name ++ "\s)")%string)
    with (String "^" (String "(" (String "@" (String "?"
            (name ++ "\s)")%string)))).
  cbn [Regex.parse_from Regex.classify Regex.apply_quantifier
       Regex.push_term Regex.cur_terms Regex.closed_alts Regex.empty_frame
       Regex.quantify].
  rewrite parse_from_plain by exact H.
  cbn [Regex.parse_from Regex.classify Regex.escape Regex.push_term
       Regex.cur_terms Regex.closed_alts Regex.disjunction_of
       Regex.alternative_of fold_left Regex.regex_of_term].
  rewrite cat_plain_terms. reflexivity.
Qed.

(** ** Matching the pattern of a plain display name *)

Lemma matcher_chars (name : string) (tail : Regex.regex) (i : nat)
  (s : string) (k : Regex.continuation) :
  Regex.matcher (Regex.chars name tail) i s k
  = match Spec.strip_prefix name s with
    | Some rest => Regex.matcher tail (i + String.length name) rest k
    | None => None
    end.
Proof.
  revert i s. induction name as [|c name IH]; intros i s.
  - simpl. rewrite Nat.add_0_r. now destruct s.
  - cbn [Regex.chars Regex.matcher]. destruct s as [|x s]; [reflexivity|].
    cbn [Regex.match_char Spec.strip_prefix String.length].
    destruct (JS.canon_eqb x c); [|reflexivity].
    rewrite IH. now rewrite Nat.add_succ_r.
Qed.

Lemma matcher_name_space (p : string) (i : nat) (s : string)
  (k : Regex.continuation) :
  Regex.matcher (Regex.chars p (Regex.Cat (Regex.ClassSpace false) Regex.Eps))
                i s k
  = match Spec.strip_prefix p s with
    | Some (String c rest) =>
        if JS.is_space c then k (S (i + String.length p)) rest else None
    | _ => None
    end.
Proof.
  rewrite matcher_chars.
  destruct (Spec.strip_prefix p s) as [[|c rest]|]; reflexivity.
Qed.

Ltac split_prefix_cases :=
  repeat match goal with
    | |- context [Spec.strip_prefix ?p ?s] =>
        destruct (Spec.strip_prefix p s) as [[|? ?]|]
    | |- context [JS.is_space ?c] => destruct (JS.is_space c)
    end.

(** At index 0 the pattern matches exactly when the input begins with
    the name, or with an at-sign and the name, followed by whitespace. *)
Lemma matcher_mention_regex (name s : string) :
  match Regex.matcher (Regex.mention_regex name) 0 s (fun e _ => Some e) with
  | Some _ => true
  | None => false
  end = Spec.begins_with_mention name s.
Proof.
  unfold Regex.mention_regex, Spec.begins_with_mention, Spec.begins_with.
  cbn [Regex.matcher Nat.eqb].
  rewrite matcher_name_space.
  destruct s as [|x s].
  - cbn [Regex.match_char Regex.or_else Spec.strip_prefix].
    split_prefix_cases; reflexivity.
  - cbn [Regex.match_char Spec.strip_prefix].
    destruct (JS.canon_eqb x "@").
    + unfold Regex.progress. cbn [Nat.eqb].
      rewrite matcher_name_space.
      split_prefix_cases; reflexivity.
    + cbn [Regex.or_else]. rewrite orb_false_r.
      split_prefix_cases; reflexivity.
Qed.

(** The pattern is anchored: it matches at no later index. *)
Lemma exec_from_mention_regex_later (name s : string) (i : nat) :
  Regex.exec_from (Regex.mention_regex name) (S i) s = None.
Proof.
  revert i. induction s as [|c s IH]; intros i.
  - reflexivity.
  - cbn [Regex.exec_from]. unfold Regex.mention_regex at 1.
    cbn [Regex.matcher Nat.eqb]. apply IH.
Qed.

Lemma test_mention_regex (name s : string) :
  Regex.test (Regex.mention_regex name) s = Spec.begins_with_mention name s.
Proof.
  rewrite <- matcher_mention_regex. unfold Regex.test, Regex.exec.
  destruct s as [|c s]; cbn [Regex.exec_from];
    destruct (Regex.matcher (Regex.mention_regex name) 0 _ _);
    try reflexivity.
  now rewrite exec_from_mention_regex_later.
Qed.

Lemma replace_mention_regex_unmentioned (name s : string) :
  Spec.begins_with_mention name s = false ->
  Regex.replace_empty (Regex.mention_regex name) s = s.
Proof.
  intros H. rewrite <- test_mention_regex in H.
  unfold Regex.test in H. unfold Regex.replace_empty.
  now destruct (Regex.exec (Regex.mention_regex name) s).
Qed.

(** A text without whitespace mentions nobody; [undefined], which the
    filter tests when the text is absent, is one. *)
Lemma begins_with_no_space (p s : string) :
  forallb (fun c => negb (JS.is_space c)) (list_ascii_of_string s) = true ->
  Spec.begins_with p s = false.
Proof.
  unfold Spec.begins_with. revert s.
  induction p as [|a p IH]; intros [|b s] H; simpl in *; try reflexivity.
  - apply andb_prop in H. destruct H as [Hb _].
    now apply negb_true_iff in Hb.
  - apply andb_prop in H. destruct H as [_ Hs].
    destruct (JS.canon_eqb b a); [now apply IH|reflexivity].
Qed.

Lemma undefined_mentions_nobody (name : string) :
  Spec.begins_with_mention name (JS.ToString None) = false.
Proof.
  unfold Spec.begins_with_mention.
  now rewrite !begins_with_no_space by reflexivity.
Qed.

(** ** Acceptance filter *)

Section Filter.

Context {engine : RegExpEngine}.

Lemma sent_by_self (this : LychiiBot) (me : Self) (sender : option Sender)
  (own : Self -> option string) :
  self this = Some me ->
  sent_by sender own this
  = Normal match sender with
           | Some s => JS.strict_eq (sender_id s) (own me)
           | None => false
           end.
Proof. unfold sent_by. intros ->. now destruct sender. Qed.

(** With the bot's identity known, the filter is the four steps of the
    specification. *)
Lemma isAcceptable_steps (this : LychiiBot) (me : Self) (metaMsg : MetaMsg)
  (re : RegExp) :
  self this = Some me ->
  isAcceptable this metaMsg re
  = Normal (if Spec.self_authored me metaMsg then false
            else if isDM metaMsg then true
            else RegExp_test re (JS.ToString (text metaMsg))).
Proof.
  intros Hme. unfold isAcceptable, Spec.self_authored.
  rewrite !(sent_by_self _ me) by exact Hme.
  destruct (user metaMsg) as [u|], (bot metaMsg) as [b|]; simpl;
    repeat match goal with
      | |- context [JS.strict_eq ?a ?b] => destruct (JS.strict_eq a b); simpl
      end;
    try reflexivity; now destruct (isDM metaMsg).
Qed.

(** C4. An event whose sender is a user record with the id of the bot
    itself is rejected by the acceptance filter, whatever its text and
    whether or not it is a direct message. *)
Theorem isAcceptable_rejects_own_user (this : LychiiBot) (me : Self)
  (metaMsg : MetaMsg) (u : Sender) (re : RegExp) :
  self this = Some me ->
  user metaMsg = Some u ->
  sender_id u = self_id me ->
  isAcceptable this metaMsg re = Normal false.
Proof.
  intros Hme Hu Hid. unfold isAcceptable, sent_by.
  rewrite Hu, Hme, Hid, strict_eq_refl. reflexivity.
Qed.

(** C5, as amended. A direct message that is not self-authored (its user
    does not have the bot's id, its service identity does not have the
    bot's service-identity id) is accepted, whatever its text, absent or
    empty text included. *)
Theorem isAcceptable_accepts_foreign_direct_message (this : LychiiBot)
  (me : Self) (metaMsg : MetaMsg) (re : RegExp) :
  self this = Some me ->
  Spec.self_authored me metaMsg = false ->
  isDM metaMsg = true ->
  isAcceptable this metaMsg re = Normal true.
Proof.
  intros Hme Hself Hdm.
  rewrite (isAcceptable_steps _ me) by exact Hme.
  now rewrite Hself, Hdm.
Qed.

Lemma trimMessage_absent_text (metaMsg : MetaMsg) (re : RegExp) :
  text metaMsg = None ->
  trimMessage metaMsg re = throw TypeError metaMsg.
Proof. unfold trimMessage. now intros ->. Qed.

(** ** Classification *)

Lemma debug_in_channel_calls (metaMsg : MetaMsg) (line : string -> string) :
  calls (effects (debug_in_channel metaMsg line)) = [].
Proof. unfold debug_in_channel. now destruct (channel metaMsg). Qed.

Lemma classify_event_log_only (this : LychiiBot) (metaMsg : MetaMsg) :
  Spec.log_only_subtype (effective_subtype metaMsg) = true ->
  calls (effects (classify_event this metaMsg)) = [].
Proof.
  unfold classify_event, Spec.log_only_subtype, is_join, is_leave, is_topic.
  cbn [existsb]. set (s := effective_subtype metaMsg).
  destruct (String.eqb s "channel_join"), (String.eqb s "group_join"),
    (String.eqb s "channel_leave"), (String.eqb s "group_leave"),
    (String.eqb s "channel_topic"), (String.eqb s "group_topic");
    cbn [orb]; intros H; try discriminate H; apply debug_in_channel_calls.
Qed.

(** Plugins are called, if at all, from the classification of the event
    with its text trimmed. *)
Lemma onIncomingMessage_calls (this : LychiiBot) (metaMsg : MetaMsg) :
  calls (effects (onIncomingMessage this metaMsg)) = []
  \/ exists t,
       calls (effects (onIncomingMessage this metaMsg))
       = calls (effects (classify_event this (set_text metaMsg t))).
Proof.
  unfold onIncomingMessage.
  destruct (self this) as [me|]; [|now left].
  destruct (RegExp_i (selfRecognizeSource (self_name me))) as [re| |];
    [|now left|now left].
  destruct (isAcceptable this metaMsg re) as [[|]|e|];
    [|now left|now left|now left].
  unfold trimMessage. destruct (text metaMsg) as [t|]; [|now left].
  right. eexists. rewrite done_and_then. reflexivity.
Qed.

(** C7. An event whose subtype is one of channel_join, group_join,
    channel_leave, group_leave, channel_topic and group_topic reaches
    the [processMessage] of no plugin; an event that reaches a plugin
    has a subtype of the default branch (message, bot_message, absent or
    anything else). *)
Theorem log_only_subtypes_reach_no_plugin (this : LychiiBot)
  (metaMsg : MetaMsg) :
  (forall s, subtype metaMsg = Some s ->
             Spec.log_only_subtype s = true ->
             calls (effects (onIncomingMessage this metaMsg)) = [])
  /\ (calls (effects (onIncomingMessage this metaMsg)) <> [] ->
      Spec.log_only_subtype (effective_subtype metaMsg) = false).
Proof.
  assert (Hlog : Spec.log_only_subtype (effective_subtype metaMsg) = true ->
                 calls (effects (onIncomingMessage this metaMsg)) = []).
  { intros H.
    destruct (onIncomingMessage_calls this metaMsg) as [H0|[t Ht]];
      [exact H0|].
    rewrite Ht. now apply classify_event_log_only. }
  split.
  - intros s Hs Hlo. apply Hlog. unfold effective_subtype. rewrite Hs.
    destruct s; [discriminate Hlo|exact Hlo].
  - intros Hcalls.
    destruct (Spec.log_only_subtype (effective_subtype metaMsg)) eqn:Hlo;
      [|reflexivity].
    now destruct Hcalls; apply Hlog.
Qed.

End Filter.

(** ** Dispatch order and failure *)

(** The same at the level of the handler: the exception of a plugin
    leaves [onIncomingMessage] when the event is forwarded. *)
Example onIncomingMessage_propagates_plugin_exception :
  let this := Examples.bot_with Examples.lychii
                [Examples.faulty; Examples.quiet] in
  let r := onIncomingMessage this
             (Examples.message_from (Some Examples.alice)
                (Some "lychii hi") None false) in
  completed r = Throw (Thrown "boom")
  /\ calls (effects r) = [Examples.faulty]
  /\ text (after r) = Some "hi".
Proof. repeat split. Qed.

(** ** Registration failure *)

(** C2, as amended. When the definitions before [d] register normally
    and the init hook of the instance of [d] throws, the exception
    leaves [loadPlugins] uncaught; the instance of [d] is already the
    last entry of the registry, and no later definition is instantiated,
    registered or logged. *)
Theorem init_failure_ends_registration (this : LychiiBot)
  (pre post : list PluginClass) (d : PluginClass) (inst : PluginInstance)
  (e : exn) :
  completed (loadPlugins (Some pre) this) = Normal tt ->
  plugin_new d = inr inst ->
  plugin_init inst = Some (Throws e) ->
  let r := loadPlugins (Some (pre ++ d :: post)%list) this in
  completed r = Throw e
  /\ plugins (after r)
     = (plugins (after (loadPlugins (Some pre) this)) ++ [inst])%list
  /\ effects r
     = (effects (loadPlugins (Some pre) this)
        ++ [Debug ("register plugin: " ++ plugin_name d)])%list.
Proof.
  cbn [loadPlugins]. intros Hpre Hd Hi. cbv zeta.
  rewrite for_each_app, (and_then_normal _ _ Hpre).
  cbn [completed effects after for_each].
  assert (Hc : completed (registerPlugin
                            (after (for_each registerPlugin pre this)) d)
               = Throw e).
  { now rewrite registerPlugin_completed, Hd, Hi. }
  rewrite and_then_abrupt by (intros u; rewrite Hc; discriminate).
  rewrite Hc, registerPlugin_after, registerPlugin_effects, Hd.
  repeat split.
Qed.

(** ** Identity construction without a default channel *)

(** C3. The code at a payload none of whose groups has the configured
    name: [onAuthenticated] stores the identity, logs the login line and
    then throws a TypeError reading [name] of the absent default channel;
    no configuration error is reported. *)
Theorem onAuthenticated_dereferences_absent_channel :
  onAuthenticated Examples.config new_LychiiBot
    Examples.identity_without_general
  = mkRun (Throw TypeError)
          [Debug "login to team team as lychii"]
          (mkBot (Some Examples.lychii) (Some (mkTeam (Some "team")))
                 (Some [mkUserEntry (Some "U1") (Some "B1")]) None []).
Proof. reflexivity. Qed.

(** ** The filter and the normaliser on the modelled engine *)

(** For a display name without syntax characters the filter is the four
    steps of the specification, the last one in its own words. *)
Lemma isAcceptable_plain_name (this : LychiiBot) (me : Self)
  (metaMsg : MetaMsg) :
  self this = Some me ->
  Spec.is_plain (JS.ToString (self_name me)) = true ->
  exists re,
    RegExp_i (selfRecognizeSource (self_name me)) = Regex.Constructed re
    /\ isAcceptable this metaMsg re
       = Normal (if Spec.self_authored me metaMsg then false
                 else if isDM metaMsg then true
                 else Spec.begins_with_mention
                        (JS.ToString (self_name me))
                        (JS.ToString (text metaMsg))).
Proof.
  intros Hme Hplain.
  exists (Regex.mention_regex (JS.ToString (self_name me))). split.
  - change (selfRecognizeSource (self_name me))
      with (selfRecognizeSource (Some (JS.ToString (self_name me)))).
    now apply parse_plain_name.
  - rewrite (isAcceptable_steps _ me) by exact Hme.
    cbn [RegExp_test Fragment]. now rewrite test_mention_regex.
Qed.

(** The claim of C6 where the display name has no syntax character: a
    non-direct event whose text does not begin with the mention is
    rejected, and [onIncomingMessage] leaves it untouched. *)
Lemma unmentioned_rejected_plain_name (this : LychiiBot) (me : Self)
  (metaMsg : MetaMsg) :
  self this = Some me ->
  Spec.is_plain (JS.ToString (self_name me)) = true ->
  isDM metaMsg = false ->
  Spec.begins_with_mention (JS.ToString (self_name me))
                           (JS.ToString (text metaMsg)) = false ->
  (exists re,
     RegExp_i (selfRecognizeSource (self_name me)) = Regex.Constructed re
     /\ isAcceptable this metaMsg re = Normal false)
  /\ onIncomingMessage this metaMsg = done metaMsg.
Proof.
  intros Hme Hplain Hdm Htext.
  destruct (isAcceptable_plain_name this me metaMsg Hme Hplain)
    as (re & Hre & Hacc).
  rewrite Hdm, Htext in Hacc.
  assert (Hrej : isAcceptable this metaMsg re = Normal false).
  { rewrite Hacc. now destruct (Spec.self_authored me metaMsg). }
  split.
  - exists re. now split.
  - unfold onIncomingMessage. now rewrite Hme, Hre, Hrej.
Qed.

(** A non-direct event without text is rejected as well. *)
Lemma absent_text_rejected_plain_name (this : LychiiBot) (me : Self)
  (metaMsg : MetaMsg) :
  self this = Some me ->
  Spec.is_plain (JS.ToString (self_name me)) = true ->
  isDM metaMsg = false ->
  text metaMsg = None ->
  onIncomingMessage this metaMsg = done metaMsg.
Proof.
  intros Hme Hplain Hdm Htext.
  apply (unmentioned_rejected_plain_name this me metaMsg Hme Hplain Hdm).
  rewrite Htext. apply undefined_mentions_nobody.
Qed.

Lemma set_text_same (metaMsg : MetaMsg) :
  set_text metaMsg (text metaMsg) = metaMsg.
Proof. now destruct metaMsg. Qed.

(** The claim of C9 where the display name has no syntax character: a
    trimmed text that does not begin with the mention is left as it
    is. *)
Lemma trimMessage_fixed_plain_name (name t : string) (metaMsg : MetaMsg) :
  Spec.is_plain name = true ->
  text metaMsg = Some t ->
  Spec.is_trimmed t = true ->
  Spec.begins_with_mention name t = false ->
  RegExp_i (selfRecognizeSource (Some name))
  = Regex.Constructed (Regex.mention_regex name)
  /\ trimMessage metaMsg (Regex.mention_regex name) = done metaMsg.
Proof.
  intros Hplain Ht Htrim Hmention. split.
  - now apply parse_plain_name.
  - unfold trimMessage. rewrite Ht. cbn [String_replace Fragment].
    rewrite (trim_fixed _ Htrim),
      (replace_mention_regex_unmentioned _ _ Hmention), <- Ht.
    now rewrite set_text_same.
Qed.

Example normalize_round_trip :
  match RegExp_i (selfRecognizeSource (Some "Bot")) with
  | Regex.Constructed re =>
      text (after (trimMessage
                     (Examples.message_from (Some Examples.alice)
                        (Some "  @Bot hello there  ") None false) re))
  | _ => None
  end = Some "hello there".
Proof. reflexivity. Qed.

(** C6. The code at a display name that holds a period, [my.bot]: the
    name is spliced into the pattern unescaped, so the period stands for
    any character.  The non-direct event below, from another user, does
    not begin with the display name, yet the filter accepts it and it
    reaches the plugins. *)
Theorem unescaped_name_accepts_unmentioned :
  let this := Examples.bot_with Examples.my_bot [Examples.quiet] in
  let metaMsg := Examples.message_from (Some Examples.alice)
                   (Some "myxbot hi") None false in
  Spec.begins_with_mention "my.bot" "myxbot hi" = false
  /\ isDM metaMsg = false
  /\ Spec.self_authored Examples.my_bot metaMsg = false
  /\ (exists re,
        RegExp_i (selfRecognizeSource (self_name Examples.my_bot))
        = Regex.Constructed re
        /\ isAcceptable this metaMsg re = Normal true)
  /\ calls (effects (onIncomingMessage this metaMsg)) = [Examples.quiet].
Proof.
  cbv zeta. repeat split.
  eexists. split; reflexivity.
Qed.

(** C9. The code at the same display name: the text below is trimmed and
    does not begin with the mention, yet the normaliser removes its
    first word. *)
Theorem unescaped_name_rewrites_normalized_text :
  let metaMsg := Examples.message_from (Some Examples.alice)
                   (Some "myxbot hi") None false in
  Spec.is_trimmed "myxbot hi" = true
  /\ Spec.begins_with_mention "my.bot" "myxbot hi" = false
  /\ exists re,
       RegExp_i (selfRecognizeSource (self_name Examples.my_bot))
       = Regex.Constructed re
       /\ completed (trimMessage metaMsg re) = Normal tt
       /\ text (after (trimMessage metaMsg re)) = Some "hi".
Proof.
  cbv zeta. repeat split.
  eexists. repeat split.
Qed.

(** C10. A direct message without text, from another user, is accepted
    by the filter; the normaliser then throws a TypeError calling [trim]
    on the absent text, and the exception leaves [onIncomingMessage]
    before any plugin is called. *)
Theorem absent_text_throws_in_normalizer :
  exists (this : LychiiBot) (metaMsg : MetaMsg) (re : RegExp),
    text metaMsg = None
    /\ isDM metaMsg = true
    /\ self this = Some Examples.lychii
    /\ RegExp_i (selfRecognizeSource (self_name Examples.lychii))
       = Regex.Constructed re
    /\ isAcceptable this metaMsg re = Normal true
    /\ trimMessage metaMsg re = throw TypeError metaMsg
    /\ onIncomingMessage this metaMsg = throw TypeError metaMsg.
Proof.
  exists (Examples.bot_with Examples.lychii [Examples.quiet]),
    (Examples.message_from (Some Examples.alice) None None true),
    (Regex.mention_regex "lychii").
  repeat split.
Qed.

(** ** The claims at concrete inputs *)

(** A direct message written by the bot itself is rejected: being direct
    does not by itself make an event acceptable. *)
Lemma direct_message_from_self_rejected :
  let this := Examples.bot_with Examples.lychii [] in
  let metaMsg := Examples.message_from (Some Examples.lychii_user)
                   (Some "hello") None true in
  isDM metaMsg = true
  /\ isAcceptable this metaMsg (Regex.mention_regex "lychii") = Normal false.
Proof. split; reflexivity. Qed.

(** With a throwing plugin registered first, the plugin registered after
    it is not called and the exception leaves the dispatcher. *)
Lemma later_plugin_not_called :
  let this := Examples.bot_with Examples.lychii
                [Examples.faulty; Examples.quiet] in
  let r := processMessage this
             (Examples.message_from (Some Examples.alice)
                (Some "hi") None false) in
  plugins this = [Examples.faulty; Examples.quiet]
  /\ ~ In Examples.quiet (calls (effects r))
  /\ completed r = Throw (Thrown "boom")
  /\ effects r
     = [Debug "processing: hi";
        PluginCall Examples.faulty
          (Examples.message_from (Some Examples.alice) (Some "hi") None false)].
Proof.
  cbv zeta. split; [reflexivity|]. split; [|split; reflexivity].
  intros [H|[]]. discriminate H.
Qed.

(** With a plugin whose init hook throws defined first, the definition
    after it is neither instantiated nor registered, and the exception
    leaves [loadPlugins]. *)
Lemma later_plugin_not_registered :
  let r := loadPlugins (Some [Examples.BadInit; Examples.Quiet])
             new_LychiiBot in
  completed r = Throw (Thrown "init failed")
  /\ plugins (after r) = [Examples.bad_init]
  /\ effects r = [Debug "register plugin: BadInit"].
Proof. repeat split. Qed.

Lemma isAcceptable_rejects_own_user_witness :
  let this := Examples.bot_with Examples.lychii [] in
  let metaMsg := Examples.message_from (Some Examples.lychii_user)
                   (Some "lychii hello") None true in
  self this = Some Examples.lychii
  /\ user metaMsg = Some Examples.lychii_user
  /\ sender_id Examples.lychii_user = self_id Examples.lychii
  /\ isAcceptable this metaMsg (Regex.mention_regex "lychii") = Normal false.
Proof.
  cbv zeta. split; [reflexivity|]. split; [reflexivity|].
  split; [reflexivity|].
  apply (isAcceptable_rejects_own_user _ Examples.lychii _
           Examples.lychii_user); reflexivity.
Defined.

Lemma isAcceptable_accepts_foreign_direct_message_witness :
  let this := Examples.bot_with Examples.lychii [] in
  let metaMsg := Examples.message_from (Some Examples.alice)
                   (Some "") None true in
  self this = Some Examples.lychii
  /\ Spec.self_authored Examples.lychii metaMsg = false
  /\ isDM metaMsg = true
  /\ isAcceptable this metaMsg (Regex.mention_regex "lychii") = Normal true.
Proof.
  cbv zeta. split; [reflexivity|]. split; [reflexivity|].
  split; [reflexivity|].
  apply (isAcceptable_accepts_foreign_direct_message _ Examples.lychii);
    reflexivity.
Defined.

Lemma log_only_subtypes_reach_no_plugin_witness :
  let this := Examples.bot_with Examples.lychii [Examples.quiet] in
  let joined := Examples.message_from (Some Examples.alice)
                  (Some "lychii joined") (Some "channel_join") false in
  let said := Examples.message_from (Some Examples.alice)
                (Some "lychii hi") (Some "bot_message") false in
  effects (onIncomingMessage this joined)
  = [Debug "alice has joined general"]
  /\ calls (effects (onIncomingMessage this joined)) = []
  /\ calls (effects (onIncomingMessage this said)) = [Examples.quiet]
  /\ Spec.log_only_subtype (effective_subtype said) = false.
Proof.
  cbv zeta. split; [reflexivity|]. split; [|split; [reflexivity|]].
  - apply (proj1 (log_only_subtypes_reach_no_plugin _ _) "channel_join");
      reflexivity.
  - apply (proj2 (log_only_subtypes_reach_no_plugin
                    (Examples.bot_with Examples.lychii [Examples.quiet]) _)).
    vm_compute. discriminate.
Defined.

Lemma init_failure_ends_registration_witness :
  let r := loadPlugins
             (Some [Examples.Quiet; Examples.BadInit; Examples.Shouting])
             new_LychiiBot in
  completed r = Throw (Thrown "init failed")
  /\ plugins (after r) = [Examples.quiet; Examples.bad_init]
  /\ effects r = [Debug "register plugin: Quiet";
                  Debug "register plugin: BadInit"].
Proof.
  cbv zeta.
  apply (init_failure_ends_registration new_LychiiBot [Examples.Quiet]
           [Examples.Shouting] Examples.BadInit Examples.bad_init
           (Thrown "init failed")); reflexivity.
Defined.

(* ================================================================= *)
(** * Further properties of the code *)

(** ** The match reported by the engine lies within the input *)

Lemma position_of_refl (i : nat) (s : string) : position_of i s i s.
Proof. unfold position_of. lia. Qed.

Lemma position_of_trans (i : nat) (s : string) (i1 : nat) (s1 : string)
  (i2 : nat) (s2 : string) :
  position_of i s i1 s1 -> position_of i1 s1 i2 s2 -> position_of i s i2 s2.
Proof. unfold position_of. lia. Qed.

Lemma match_char_reaches (p : ascii -> bool) (i : nat) (s : string)
  (k : Regex.continuation) (e : nat) :
  Regex.match_char p i s k = Some e -> reaches i s k e.
Proof.
  unfold Regex.match_char. destruct s as [|x s']; [discriminate|].
  destruct (p x); [|discriminate]. intros H.
  exists (S i), s'. split; [exact H|]. unfold position_of. simpl. lia.
Qed.

Lemma reaches_trans (i : nat) (s : string) (k k' : Regex.continuation)
  (e : nat) :
  reaches i s k' e ->
  (forall i' s', position_of i s i' s' -> k' i' s' = Some e ->
                 reaches i' s' k e) ->
  reaches i s k e.
Proof.
  intros (i1 & s1 & Hk & Hp) Hstep.
  destruct (Hstep i1 s1 Hp Hk) as (i2 & s2 & Hk2 & Hp2).
  exists i2, s2. split; [exact Hk2|].
  exact (position_of_trans _ _ _ _ _ _ Hp Hp2).
Qed.

Lemma progress_reaches (i0 : nat) (k : Regex.continuation) (i : nat)
  (s : string) (e : nat) :
  Regex.progress i0 k i s = Some e -> k i s = Some e.
Proof. unfold Regex.progress. now destruct (Nat.eqb i i0). Qed.

(** The iteration of a quantified atom, given that the atom reaches its
    continuation only at positions of the input. *)
Lemma repeat_reaches (r1 : Regex.regex) (k : Regex.continuation) (e : nat)
  (IH : forall i s k', Regex.matcher r1 i s k' = Some e -> reaches i s k' e)
  (fuel : nat) :
  forall i s,
    (fix repeat (fuel : nat) (i : nat) (s : string) : option nat :=
       match fuel with
       | O => k i s
       | S fuel' =>
           Regex.or_else
             (Regex.matcher r1 i s (Regex.progress i (repeat fuel')))
             (k i s)
       end) fuel i s = Some e ->
    reaches i s k e.
Proof.
  induction fuel as [|fuel IHf]; intros i s H.
  - exists i, s. split; [exact H|apply position_of_refl].
  - unfold Regex.or_else in H.
    match type of H with
    | match ?m with _ => _ end = _ => destruct m as [e'|] eqn:Hm
    end.
    + injection H as ->.
      apply (reaches_trans i s k _ e (IH _ _ _ Hm)).
      intros i' s' _ Hk. apply progress_reaches in Hk.
      now apply IHf.
    + exists i, s. split; [exact H|apply position_of_refl].
Qed.

Lemma matcher_reaches (r : Regex.regex) :
  forall i s k e, Regex.matcher r i s k = Some e -> reaches i s k e.
Proof.
  induction r as [|c| |neg|neg|neg| | |r1 IH1 r2 IH2|r1 IH1 r2 IH2
                 |r1 IH1|r1 IH1|r1 IH1|r1 IH1];
    intros i s k e H; cbn [Regex.matcher] in H.
  - exists i, s. split; [exact H|apply position_of_refl].
  - now apply match_char_reaches in H.
  - now apply match_char_reaches in H.
  - now apply match_char_reaches in H.
  - now apply match_char_reaches in H.
  - now apply match_char_reaches in H.
  - destruct (Nat.eqb i 0); [|discriminate].
    exists i, s. split; [exact H|apply position_of_refl].
  - destruct s; [|discriminate].
    exists i, EmptyString. split; [exact H|apply position_of_refl].
  - apply (reaches_trans i s k _ e (IH1 _ _ _ _ H)).
    intros i' s' _ Hk. now apply IH2.
  - unfold Regex.or_else in H.
    destruct (Regex.matcher r1 i s k) as [e'|] eqn:H1.
    + injection H as ->. now apply IH1.
    + now apply IH2.
  - apply (repeat_reaches r1 k e (fun i s k' => IH1 i s k' e) _ _ _ H).
  - apply (reaches_trans i s k _ e (IH1 _ _ _ _ H)).
    intros i' s' _ Hk.
    apply (repeat_reaches r1 k e (fun i s k' => IH1 i s k' e) _ _ _ Hk).
  - unfold Regex.or_else in H.
    match type of H with
    | match ?m with _ => _ end = _ => destruct m as [e'|] eqn:Hm
    end.
    + injection H as ->.
      apply (reaches_trans i s k _ e (IH1 _ _ _ _ Hm)).
      intros i' s' _ Hk. apply progress_reaches in Hk.
      exists i', s'. split; [exact Hk|apply position_of_refl].
    + exists i, s. split; [exact H|apply position_of_refl].
  - now apply IH1.
Qed.

Lemma exec_from_bounds (r : Regex.regex) (s : string) :
  forall i b e,
    Regex.exec_from r i s = Some (b, e) ->
    i <= b /\ b <= e /\ e <= i + String.length s.
Proof.
  induction s as [|c s IH]; intros i b e H; cbn [Regex.exec_from] in H.
  - destruct (Regex.matcher r i "" (fun e _ => Some e)) as [e'|] eqn:Hm;
      [|discriminate].
    injection H as <- <-.
    destruct (matcher_reaches r _ _ _ _ Hm) as (i' & s' & Hk & Hp).
    injection Hk as ->. unfold position_of in Hp. simpl in *. lia.
  - destruct (Regex.matcher r i (String c s) (fun e _ => Some e))
      as [e'|] eqn:Hm.
    + injection H as <- <-.
      destruct (matcher_reaches r _ _ _ _ Hm) as (i' & s' & Hk & Hp).
      injection Hk as ->. unfold position_of in Hp. simpl in *. lia.
    + apply IH in H. simpl. lia.
Qed.

Lemma length_take (n : nat) (s : string) :
  String.length (JS.take n s) = Nat.min n (String.length s).
Proof.
  revert s. induction n as [|n IH]; intros [|c s]; simpl; try reflexivity.
  now rewrite IH.
Qed.

Lemma length_drop (n : nat) (s : string) :
  String.length (JS.drop n s) = String.length s - n.
Proof.
  revert s. induction n as [|n IH]; intros [|c s]; simpl; try reflexivity.
  apply IH.
Qed.

Lemma length_append (a b : string) :
  String.length (a ++ b) = String.length a + String.length b.
Proof. induction a as [|c a IH]; simpl; [reflexivity|now rewrite IH]. Qed.

Lemma replace_empty_length (r : Regex.regex) (s : string) :
  String.length (Regex.replace_empty r s) <= String.length s.
Proof.
  unfold Regex.replace_empty, Regex.exec.
  destruct (Regex.exec_from r 0 s) as [[b e]|] eqn:H; [|lia].
  apply exec_from_bounds in H.
  rewrite length_append, length_take, length_drop. lia.
Qed.

Lemma trimStart_length (s : string) :
  String.length (JS.trimStart s) <= String.length s.
Proof.
  induction s as [|c s IH]; simpl; [lia|].
  destruct (JS.is_space c); simpl; lia.
Qed.

Lemma trimEnd_length (s : string) :
  String.length (JS.trimEnd s) <= String.length s.
Proof.
  induction s as [|c s IH]; simpl; [lia|].
  destruct (JS.trimEnd s) as [|d t]; simpl in *.
  - destruct (JS.is_space c); simpl; lia.
  - lia.
Qed.

Lemma trim_length (s : string) :
  String.length (JS.trim s) <= String.length s.
Proof.
  unfold JS.trim.
  pose proof (trimEnd_length (JS.trimStart s)).
  pose proof (trimStart_length s). lia.
Qed.

(** ** More on the acceptance filter *)

Section FilterMore.

Context {engine : RegExpEngine}.

(** X1. An event whose service-identity record carries the bot's own
    service-identity id is rejected, whatever its user record, its text
    and its directness; two undefined ids count as equal. *)
Theorem isAcceptable_rejects_own_bot (this : LychiiBot) (me : Self)
  (metaMsg : MetaMsg) (b : Sender) (re : RegExp) :
  self this = Some me ->
  bot metaMsg = Some b ->
  sender_id b = botId me ->
  isAcceptable this metaMsg re = Normal false.
Proof.
  intros Hme Hb Hid. rewrite (isAcceptable_steps _ me) by exact Hme.
  unfold Spec.self_authored. rewrite Hb, Hid, strict_eq_refl, orb_true_r.
  reflexivity.
Qed.

(** X2. A self-authored event has no effect at all: no debug line, no
    plugin call, and the event is left as it came, whatever the display
    name makes of the pattern. *)
Theorem self_authored_event_is_dropped (this : LychiiBot) (me : Self)
  (metaMsg : MetaMsg) :
  self this = Some me ->
  Spec.self_authored me metaMsg = true ->
  effects (onIncomingMessage this metaMsg) = []
  /\ after (onIncomingMessage this metaMsg) = metaMsg.
Proof.
  intros Hme Hself. unfold onIncomingMessage. rewrite Hme.
  destruct (RegExp_i (selfRecognizeSource (self_name me))) as [re| |];
    [|split; reflexivity|split; reflexivity].
  rewrite (isAcceptable_steps _ me) by exact Hme.
  rewrite Hself. split; reflexivity.
Qed.

End FilterMore.

Lemma strict_eq_true (a b : option string) :
  JS.strict_eq a b = true -> a = b.
Proof.
  destruct a as [x|], b as [y|]; simpl; intros H;
    try discriminate H; [|reflexivity].
  apply String.eqb_eq in H. now subst.
Qed.

(** X3. For a display name without syntax characters the filter accepts
    an event exactly when it is not self-authored and either is a direct
    message or has a text that begins with the mention. *)
Theorem plain_name_accepts_exactly_mentions (this : LychiiBot) (me : Self)
  (metaMsg : MetaMsg) :
  self this = Some me ->
  Spec.is_plain (JS.ToString (self_name me)) = true ->
  exists re,
    RegExp_i (selfRecognizeSource (self_name me)) = Regex.Constructed re
    /\ (isAcceptable this metaMsg re = Normal true
        <-> Spec.self_authored me metaMsg = false
            /\ (isDM metaMsg = true
                \/ Spec.begins_with_mention (JS.ToString (self_name me))
                     (JS.ToString (text metaMsg)) = true)).
Proof.
  intros Hme Hplain.
  destruct (isAcceptable_plain_name this me metaMsg Hme Hplain)
    as (re & Hre & Hacc).
  exists re. split; [exact Hre|]. rewrite Hacc.
  destruct (Spec.self_authored me metaMsg), (isDM metaMsg),
    (Spec.begins_with_mention _ _); split;
    first [ intros H; discriminate H
          | intros [H _]; discriminate H
          | intros [_ [H|H]]; discriminate H
          | intros _; auto ].
Qed.

(** ** Whitespace before the mention *)

Lemma space_matches_only_space (c a : ascii) :
  JS.is_space c = true -> JS.canon_eqb c a = true -> JS.is_space a = true.
Proof.
  destruct c as [[] [] [] [] [] [] [] []]; intros Hc; try discriminate Hc;
    destruct a as [[] [] [] [] [] [] [] []]; intros Ha;
    first [reflexivity | discriminate Ha].
Qed.

Lemma begins_with_after_space (a c : ascii) (n t : string) :
  JS.is_space c = true ->
  JS.is_space a = false ->
  Spec.begins_with (String a n) (String c t) = false.
Proof.
  intros Hc Ha. unfold Spec.begins_with. cbn [Spec.strip_prefix].
  destruct (JS.canon_eqb c a) eqn:Hca; [|reflexivity].
  rewrite (space_matches_only_space c a Hc Hca) in Ha. discriminate Ha.
Qed.

(** X4. The filter tests the text before it is trimmed: for a display
    name without syntax characters that does not start with whitespace,
    a non-direct event whose text starts with whitespace is rejected and
    left untouched, whatever follows the whitespace. *)
Theorem leading_whitespace_hides_mention (this : LychiiBot) (me : Self)
  (metaMsg : MetaMsg) (a c : ascii) (n t : string) :
  self this = Some me ->
  self_name me = Some (String a n) ->
  Spec.is_plain (String a n) = true ->
  JS.is_space a = false ->
  isDM metaMsg = false ->
  text metaMsg = Some (String c t) ->
  JS.is_space c = true ->
  onIncomingMessage this metaMsg = done metaMsg.
Proof.
  intros Hme Hname Hplain Ha Hdm Htext Hc.
  apply (unmentioned_rejected_plain_name this me metaMsg Hme); try exact Hdm.
  - rewrite Hname. exact Hplain.
  - rewrite Hname, Htext. unfold Spec.begins_with_mention, JS.ToString.
    rewrite (begins_with_after_space a c n t Hc Ha).
    now rewrite (begins_with_after_space "@" c (String a n) t Hc).
Qed.

(** ** More on the normaliser *)

Lemma matcher_mention_regex_end (name s : string) :
  Regex.matcher (Regex.mention_regex name) 0 s (fun e _ => Some e)
  = if Spec.begins_with (String "@" name) s
    then Some (String.length name + 2)
    else if Spec.begins_with name s
         then Some (String.length name + 1)
         else None.
Proof.
  unfold Regex.mention_regex, Spec.begins_with.
  cbn [Regex.matcher Nat.eqb].
  rewrite matcher_name_space.
  destruct s as [|x s].
  - cbn [Regex.match_char Regex.or_else Spec.strip_prefix].
    split_prefix_cases; first [reflexivity | f_equal; lia].
  - cbn [Regex.match_char Spec.strip_prefix].
    destruct (JS.canon_eqb x "@").
    + unfold Regex.progress. cbn [Nat.eqb].
      rewrite matcher_name_space.
      split_prefix_cases; cbn [Regex.or_else];
        first [reflexivity | f_equal; lia].
    + cbn [Regex.or_else].
      split_prefix_cases; first [reflexivity | f_equal; lia].
Qed.

Lemma replace_mention_regex (name s : string) :
  Regex.replace_empty (Regex.mention_regex name) s
  = if Spec.begins_with (String "@" name) s
    then JS.drop (String.length name + 2) s
    else if Spec.begins_with name s
         then JS.drop (String.length name + 1) s
         else s.
Proof.
  unfold Regex.replace_empty, Regex.exec.
  assert (H : Regex.exec_from (Regex.mention_regex name) 0 s
              = match Regex.matcher (Regex.mention_regex name) 0 s
                        (fun e _ => Some e) with
                | Some e => Some (0, e)
                | None => None
                end).
  { destruct s as [|c s]; cbn [Regex.exec_from];
      destruct (Regex.matcher (Regex.mention_regex name) 0 _ _);
      try reflexivity.
    apply exec_from_mention_regex_later. }
  rewrite H, matcher_mention_regex_end.
  destruct (Spec.begins_with (String "@" name) s);
    [reflexivity|destruct (Spec.begins_with name s); reflexivity].
Qed.

(** X5. For a display name without syntax characters the normaliser
    trims the text and then removes one leading mention: the at-sign if
    there is one, the name and the single whitespace character after it.
    Whitespace after that character stays, and a text without a leading
    mention is only trimmed. *)
Theorem normalizer_strips_one_mention (name t : string) (metaMsg : MetaMsg) :
  Spec.is_plain name = true ->
  text metaMsg = Some t ->
  RegExp_i (selfRecognizeSource (Some name))
  = Regex.Constructed (Regex.mention_regex name)
  /\ trimMessage metaMsg (Regex.mention_regex name)
     = done (set_text metaMsg
               (Some (if Spec.begins_with (String "@" name) (JS.trim t)
                      then JS.drop (String.length name + 2) (JS.trim t)
                      else if Spec.begins_with name (JS.trim t)
                           then JS.drop (String.length name + 1) (JS.trim t)
                           else JS.trim t))).
Proof.
  intros Hplain Ht. split.
  - now apply parse_plain_name.
  - unfold trimMessage. rewrite Ht. cbn [String_replace Fragment].
    now rewrite replace_mention_regex.
Qed.

(** X6. Whatever pattern the display name gives, the normaliser
    completes on an event that has a text, changes nothing but the text,
    and leaves a text no longer than the one it received. *)
Theorem normalizer_never_lengthens (metaMsg : MetaMsg) (re : Regex.regex)
  (t : string) :
  text metaMsg = Some t ->
  exists t',
    trimMessage metaMsg re = done (set_text metaMsg (Some t'))
    /\ String.length t' <= String.length t.
Proof.
  intros Ht. unfold trimMessage. rewrite Ht.
  cbn [String_replace Fragment].
  eexists. split; [reflexivity|].
  pose proof (replace_empty_length re (JS.trim t)).
  pose proof (trim_length t). lia.
Qed.

(** ** The whole handler on an accepted event *)

Lemma default_branch (s : string) :
  Spec.log_only_subtype s = false ->
  is_join s = false /\ is_leave s = false /\ is_topic s = false.
Proof.
  unfold Spec.log_only_subtype, is_join, is_leave, is_topic. cbn [existsb].
  destruct (String.eqb s "channel_join"), (String.eqb s "group_join"),
    (String.eqb s "channel_leave"), (String.eqb s "group_leave"),
    (String.eqb s "channel_topic"), (String.eqb s "group_topic");
    cbn [orb]; intros H; try discriminate H; repeat split.
Qed.

Section Handler.

Context {engine : RegExpEngine}.

(** X7. An accepted event with a text, a channel and a subtype of the
    default branch is logged and handed to the fan-out with its text
    normalised; the handler ends as the fan-out ends and leaves the
    event as the plugins left it. *)
Theorem message_event_is_forwarded (this : LychiiBot) (me : Self)
  (metaMsg : MetaMsg) (re : RegExp) (t : string) (c : Channel) :
  self this = Some me ->
  RegExp_i (selfRecognizeSource (self_name me)) = Regex.Constructed re ->
  isAcceptable this metaMsg re = Normal true ->
  text metaMsg = Some t ->
  channel metaMsg = Some c ->
  Spec.log_only_subtype (effective_subtype metaMsg) = false ->
  let normalized := String_replace (JS.trim t) re in
  let forwarded := fan_out (plugins this)
                     (set_text metaMsg (Some normalized)) in
  onIncomingMessage this metaMsg
  = mkRun (completed forwarded)
          (Debug ("received from "
                  ++ JS.ToString (sender_name (effective_user metaMsg))
                  ++ " in channel " ++ JS.ToString (channel_name c)
                  ++ ": " ++ normalized)
           :: Debug ("processing: " ++ normalized)
           :: effects forwarded)
          (after forwarded).
Proof.
  intros Hme Hre Hacc Ht Hc Hsub. cbv zeta.
  unfold onIncomingMessage. rewrite Hme, Hre, Hacc.
  unfold trimMessage. rewrite Ht, done_and_then.
  unfold classify_event.
  change (effective_subtype (set_text metaMsg _))
    with (effective_subtype metaMsg).
  destruct (default_branch _ Hsub) as (-> & -> & ->).
  unfold debug_in_channel. cbn [channel set_text]. rewrite Hc.
  reflexivity.
Qed.

(** X8. An accepted event without a channel reaches no plugin, whatever
    its subtype: every branch reads the name of the channel for its
    debug line and throws a TypeError; the text has been normalised by
    then. *)
Theorem accepted_event_without_channel_throws (this : LychiiBot) (me : Self)
  (metaMsg : MetaMsg) (re : RegExp) (t : string) :
  self this = Some me ->
  RegExp_i (selfRecognizeSource (self_name me)) = Regex.Constructed re ->
  isAcceptable this metaMsg re = Normal true ->
  text metaMsg = Some t ->
  channel metaMsg = None ->
  onIncomingMessage this metaMsg
  = mkRun (Throw TypeError) []
          (set_text metaMsg (Some (String_replace (JS.trim t) re))).
Proof.
  intros Hme Hre Hacc Ht Hc.
  unfold onIncomingMessage. rewrite Hme, Hre, Hacc.
  unfold trimMessage. rewrite Ht, done_and_then.
  unfold classify_event, debug_in_channel. cbn [channel set_text].
  rewrite Hc.
  destruct (is_join _); [reflexivity|].
  destruct (is_leave _); [reflexivity|].
  destruct (is_topic _); reflexivity.
Qed.

End Handler.

(** ** The event object in the fan-out *)

Lemma fan_out_after (ps : list PluginInstance) (metaMsg : MetaMsg) :
  after (fan_out ps metaMsg)
  = fold_left event_after (calls (effects (fan_out ps metaMsg))) metaMsg.
Proof.
  revert metaMsg. induction ps as [|p ps IH]; intros m; [reflexivity|].
  rewrite fan_out_cons. unfold and_then.
  destruct (completed (call_plugin p m)) eqn:Hc.
  - cbn [after effects]. rewrite calls_app, call_plugin_calls, IH.
    cbn [app fold_left]. unfold event_after at 3.
    now rewrite call_plugin_after.
  - rewrite call_plugin_calls, call_plugin_after. reflexivity.
  - rewrite call_plugin_calls, call_plugin_after. reflexivity.
Qed.

(** X9. When no plugin of the registry changes the event, every plugin
    that is called receives the event as it was forwarded, and the
    fan-out leaves it so. *)
Theorem fan_out_passes_same_event (ps : list PluginInstance)
  (metaMsg : MetaMsg) :
  (forall p, In p ps -> event_after metaMsg p = metaMsg) ->
  after (fan_out ps metaMsg) = metaMsg
  /\ exists n,
       effects (fan_out ps metaMsg)
       = map (fun p => PluginCall p metaMsg) (firstn n ps).
Proof.
  induction ps as [|p ps IH]; intros Hsame.
  - split; [reflexivity|]. now exists 0.
  - assert (Hp : after (call_plugin p metaMsg) = metaMsg).
    { rewrite call_plugin_after. apply Hsame. now left. }
    assert (He : effects (call_plugin p metaMsg) = [PluginCall p metaMsg]).
    { unfold call_plugin. now destruct (plugin_processMessage p metaMsg). }
    destruct IH as (Hafter & n & Hn).
    { intros q Hq. apply Hsame. now right. }
    rewrite fan_out_cons. unfold and_then.
    destruct (completed (call_plugin p metaMsg)); cbn [after effects];
      rewrite ?Hp, ?He.
    + split; [exact Hafter|]. exists (S n). now rewrite Hn.
    + split; [reflexivity|]. now exists 1.
    + split; [reflexivity|]. now exists 1.
Qed.

(** X10. The event object is shared: a plugin receives the event as the
    plugins registered before it left it. *)
Theorem later_plugin_sees_earlier_changes (pre post : list PluginInstance)
  (q : PluginInstance) (metaMsg : MetaMsg) :
  completed (fan_out pre metaMsg) = Normal tt ->
  exists rest,
    effects (fan_out (pre ++ q :: post) metaMsg)
    = (effects (fan_out pre metaMsg)
       ++ PluginCall q (fold_left event_after pre metaMsg) :: rest)%list.
Proof.
  intros Hpre.
  rewrite fan_out_app, (and_then_normal _ _ Hpre). cbn [effects].
  rewrite fan_out_after, (fan_out_calls_normal _ _ Hpre), fan_out_cons.
  set (m := fold_left event_after pre metaMsg).
  assert (He : effects (call_plugin q m) = [PluginCall q m]).
  { unfold call_plugin. now destruct (plugin_processMessage q m). }
  unfold and_then.
  destruct (completed (call_plugin q m)); cbn [effects]; rewrite He.
  - eexists. reflexivity.
  - now exists [].
  - now exists [].
Qed.

(** ** More on registration *)

Lemma extends_registry_refl (this : LychiiBot) : extends_registry this this.
Proof.
  unfold extends_registry. repeat split. exists []. now rewrite app_nil_r.
Qed.

Lemma extends_registry_trans (a b c : LychiiBot) :
  extends_registry a b -> extends_registry b c -> extends_registry a c.
Proof.
  intros ((x & Hx) & Hs & Ht & Hu & Hd) ((y & Hy) & Hs' & Ht' & Hu' & Hd').
  unfold extends_registry. repeat split; try congruence.
  exists (x ++ y)%list. now rewrite Hy, Hx, app_assoc.
Qed.

Lemma registerPlugin_extends (this : LychiiBot) (d : PluginClass) :
  extends_registry this (after (registerPlugin this d)).
Proof.
  rewrite registerPlugin_after.
  destruct (plugin_new d) as [e|inst]; [apply extends_registry_refl|].
  unfold extends_registry, push_plugin. cbn. repeat split.
  now exists [inst].
Qed.

Lemma for_each_extends {A} (f : LychiiBot -> A -> Run LychiiBot)
  (xs : list A) :
  (forall this x, extends_registry this (after (f this x))) ->
  forall this, extends_registry this (after (for_each f xs this)).
Proof.
  intros Hf. induction xs as [|x xs IH]; intros this; cbn [for_each].
  - apply extends_registry_refl.
  - unfold and_then. destruct (completed (f this x)); cbn [after];
      try apply Hf.
    exact (extends_registry_trans _ _ _ (Hf this x) (IH _)).
Qed.

(** X13. When the constructor of a plugin throws, the exception leaves
    [loadPlugins]; the bot is as the definitions before left it, and no
    later definition is instantiated, registered or logged. *)
Theorem constructor_failure_ends_registration (this : LychiiBot)
  (pre post : list PluginClass) (d : PluginClass) (e : exn) :
  completed (loadPlugins (Some pre) this) = Normal tt ->
  plugin_new d = inl e ->
  let r := loadPlugins (Some (pre ++ d :: post)%list) this in
  completed r = Throw e
  /\ after r = after (loadPlugins (Some pre) this)
  /\ effects r
     = (effects (loadPlugins (Some pre) this)
        ++ [Debug ("register plugin: " ++ plugin_name d)])%list.
Proof.
  cbn [loadPlugins]. intros Hpre Hd. cbv zeta.
  rewrite for_each_app, (and_then_normal _ _ Hpre).
  cbn [completed effects after for_each].
  assert (Hc : completed (registerPlugin
                            (after (for_each registerPlugin pre this)) d)
               = Throw e).
  { now rewrite registerPlugin_completed, Hd. }
  rewrite and_then_abrupt by (intros u; rewrite Hc; discriminate).
  rewrite Hc, registerPlugin_after, registerPlugin_effects, Hd.
  repeat split.
Qed.

(** ** A display name with an open parenthesis *)

Lemma parse_from_open_plain (c : ascii) (rest : string) (f : Regex.frame)
  (stack : list Regex.frame) :
  Regex.is_syntax_char c = false ->
  Regex.parse_from (String "(" (String c rest)) f stack
  = Regex.parse_from (String c rest) Regex.empty_frame (f :: stack).
Proof.
  destruct c as [[] [] [] [] [] [] [] []]; intros H;
    first [discriminate H | reflexivity].
Qed.

Lemma unterminated_group (a b : string) :
  Spec.is_plain a = true ->
  Spec.is_plain b = true ->
  Regex.parse (selfRecognizeSource (Some (a ++ String "(" b)))
  = Regex.SyntaxError.
Proof.
  intros Ha Hb. unfold selfRecognizeSource, Regex.parse, JS.ToString.
  replace ("^(@?" ++ (a ++ String "(" b) ++ "\s)")%string
    with (String "^" (String "(" (String "@" (String "?"
            (a ++ String "(" (b ++ "\s)"))%string)))).
  2:{ simpl. do 4 f_equal. induction a as [|x a IH]; simpl;
        [reflexivity|]. f_equal. apply IH.
      simpl in Ha. apply andb_prop in Ha. apply Ha. }
  cbn [Regex.parse_from Regex.classify Regex.apply_quantifier
       Regex.push_term Regex.cur_terms Regex.closed_alts Regex.empty_frame
       Regex.quantify].
  rewrite parse_from_plain by exact Ha.
  destruct b as [|c b].
  - reflexivity.
  - simpl in Hb. apply andb_prop in Hb. destruct Hb as [Hc Hb].
    apply negb_true_iff in Hc.
    change ((String c b ++ "\s)")%string) with (String c (b ++ "\s)")).
    rewrite parse_from_open_plain by exact Hc.
    change (String c (b ++ "\s)")) with ((String c b ++ "\s)")%string).
    rewrite parse_from_plain
      by (simpl; now rewrite Hc, Hb).
    reflexivity.
Qed.

(** X14. A display name with an open parenthesis among characters
    without meaning in a pattern makes the pattern an unterminated
    group: every incoming event, direct or not, ends the handler with a
    SyntaxError before the filter runs; nothing is logged and no plugin
    is called. *)
Theorem open_parenthesis_in_name_breaks_handler (this : LychiiBot)
  (me : Self) (a b : string) (metaMsg : MetaMsg) :
  self this = Some me ->
  self_name me = Some (a ++ String "(" b) ->
  Spec.is_plain a = true ->
  Spec.is_plain b = true ->
  onIncomingMessage this metaMsg = throw RegExpSyntaxError metaMsg.
Proof.
  intros Hme Hname Ha Hb. unfold onIncomingMessage.
  rewrite Hme, Hname. cbn [RegExp_i Fragment].
  now rewrite (unterminated_group a b Ha Hb).
Qed.

(** ** More on identity construction *)

Lemma fold_left_no_match {A B} (P : A -> bool) (F : A -> B) (l : list A)
  (init : B) :
  forallb (fun y => negb (P y)) l = true ->
  fold_left (fun acc y => if P y then F y else acc) l init = init.
Proof.
  revert init. induction l as [|y l IH]; intros init H; [reflexivity|].
  simpl in *. apply andb_prop in H. destruct H as [Hy Hl].
  apply negb_true_iff in Hy. rewrite Hy. now apply IH.
Qed.

Lemma fold_left_last_match {A B} (P : A -> bool) (F : A -> B)
  (l1 l2 : list A) (x : A) (init : B) :
  P x = true ->
  forallb (fun y => negb (P y)) l2 = true ->
  fold_left (fun acc y => if P y then F y else acc) (l1 ++ x :: l2) init
  = F x.
Proof.
  intros Hx Hl2. rewrite fold_left_app. cbn [fold_left]. rewrite Hx.
  now apply fold_left_no_match.
Qed.

(** X15. When groups of the configured name exist, the default channel
    becomes the last of them in the payload, whatever it was before;
    [onAuthenticated] completes and logs the login and the channel. *)
Theorem default_channel_is_last_match (config : Config) (this : LychiiBot)
  (identity : Identity) (before after_g : list Channel) (g : Channel) :
  identity_groups identity = (before ++ g :: after_g)%list ->
  JS.strict_eq (channel_name g) (config_defaultChannel config) = true ->
  forallb
    (fun c => negb (JS.strict_eq (channel_name c)
                                 (config_defaultChannel config)))
    after_g = true ->
  let r := onAuthenticated config this identity in
  completed r = Normal tt
  /\ defaultChannel (after r) = Some g
  /\ effects r
     = [Debug ("login to team "
               ++ JS.ToString (team_name (identity_team identity))
               ++ " as " ++ JS.ToString (self_name (identity_self identity)));
        Debug ("default channel: "
               ++ JS.ToString (config_defaultChannel config))].
Proof.
  intros Hgroups Hg Hafter. cbv zeta. unfold onAuthenticated.
  rewrite Hgroups.
  rewrite (fold_left_last_match
             (fun c => JS.strict_eq (channel_name c)
                                    (config_defaultChannel config))
             Some before after_g g _ Hg Hafter).
  apply strict_eq_true in Hg. rewrite <- Hg.
  repeat split.
Qed.

(** X16. The service-identity id of the bot is the [profile.bot_id] of
    the last directory entry that carries the bot's user id, even when
    [onAuthenticated] then fails for want of a default channel. *)
Theorem botId_is_last_matching_entry (config : Config) (this : LychiiBot)
  (identity : Identity) (before after_u : list UserEntry) (u : UserEntry) :
  identity_users identity = (before ++ u :: after_u)%list ->
  JS.strict_eq (user_id u) (self_id (identity_self identity)) = true ->
  forallb
    (fun v => negb (JS.strict_eq (user_id v)
                                 (self_id (identity_self identity))))
    after_u = true ->
  self (after (onAuthenticated config this identity))
  = Some (mkSelf (self_id (identity_self identity))
                 (self_name (identity_self identity))
                 (profile_bot_id u)).
Proof.
  intros Husers Hu Hafter. unfold onAuthenticated.
  rewrite Husers.
  rewrite (fold_left_last_match
             (fun v => JS.strict_eq (user_id v)
                                    (self_id (identity_self identity)))
             profile_bot_id before after_u u _ Hu Hafter).
  unfold and_then. cbn [completed debug after defaultChannel].
  match goal with
  | |- context [fold_left ?f ?l ?i] => destruct (fold_left f l i)
  end; reflexivity.
Qed.

(** X17. On a bot that already has a default channel, a payload without
    a group of the configured name does not clear it: [onAuthenticated]
    completes, logs the old channel, and replaces the rest of the
    identity. *)
Theorem reauthentication_keeps_default_channel (config : Config)
  (this : LychiiBot) (identity : Identity) (old : Channel) :
  defaultChannel this = Some old ->
  forallb
    (fun c => negb (JS.strict_eq (channel_name c)
                                 (config_defaultChannel config)))
    (identity_groups identity) = true ->
  let r := onAuthenticated config this identity in
  completed r = Normal tt
  /\ defaultChannel (after r) = Some old
  /\ team (after r) = Some (identity_team identity)
  /\ users (after r) = Some (identity_users identity)
  /\ plugins (after r) = plugins this.
Proof.
  intros Hold Hnone. cbv zeta. unfold onAuthenticated.
  rewrite (no_group_matches _ _ _ Hnone), Hold.
  repeat split.
Qed.

(** ** The further properties at concrete inputs *)

Lemma isAcceptable_rejects_own_bot_witness :
  isAcceptable (Examples.bot_with Examples.lychii [])
    MoreExamples.own_bot_message (Regex.mention_regex "lychii")
  = Normal false.
Proof.
  apply (isAcceptable_rejects_own_bot _ Examples.lychii _
           (mkSender (Some "B1") (Some "lychii"))); reflexivity.
Defined.

Lemma self_authored_event_is_dropped_witness :
  let r := onIncomingMessage
             (Examples.bot_with Examples.lychii [Examples.quiet])
             MoreExamples.own_bot_message in
  effects r = [] /\ after r = MoreExamples.own_bot_message.
Proof.
  cbv zeta.
  apply (self_authored_event_is_dropped _ Examples.lychii); reflexivity.
Defined.

Lemma plain_name_accepts_exactly_mentions_witness :
  let this := Examples.bot_with Examples.lychii [] in
  let metaMsg := Examples.message_from (Some Examples.alice)
                   (Some "@Lychii hi") None false in
  exists re,
    RegExp_i (selfRecognizeSource (self_name Examples.lychii))
    = Regex.Constructed re
    /\ (isAcceptable this metaMsg re = Normal true
        <-> Spec.self_authored Examples.lychii metaMsg = false
            /\ (isDM metaMsg = true
                \/ Spec.begins_with_mention
                     (JS.ToString (self_name Examples.lychii))
                     (JS.ToString (text metaMsg)) = true)).
Proof.
  cbv zeta.
  apply (plain_name_accepts_exactly_mentions _ Examples.lychii); reflexivity.
Defined.

Lemma leading_whitespace_hides_mention_witness :
  let metaMsg := Examples.message_from (Some Examples.alice)
                   (Some " lychii hi") None false in
  onIncomingMessage (Examples.bot_with Examples.lychii [Examples.quiet])
    metaMsg
  = done metaMsg.
Proof.
  cbv zeta.
  apply (leading_whitespace_hides_mention _ Examples.lychii _
           "l" " " "ychii" "lychii hi"); reflexivity.
Defined.

Lemma normalizer_strips_one_mention_witness :
  let metaMsg := Examples.message_from (Some Examples.alice)
                   (Some "  @lychii   hi  ") None false in
  trimMessage metaMsg (Regex.mention_regex "lychii")
  = done (set_text metaMsg (Some "  hi")).
Proof.
  cbv zeta.
  exact (proj2 (normalizer_strips_one_mention "lychii" "  @lychii   hi  "
                  (Examples.message_from (Some Examples.alice)
                     (Some "  @lychii   hi  ") None false)
                  eq_refl eq_refl)).
Defined.

Lemma normalizer_never_lengthens_witness :
  let metaMsg := Examples.message_from (Some Examples.alice)
                   (Some " my.bot hi ") None false in
  exists t',
    trimMessage metaMsg (Regex.Cat (Regex.Star Regex.AnyChar) (Regex.Chr "b"))
    = done (set_text metaMsg (Some t'))
    /\ String.length t' <= String.length " my.bot hi ".
Proof.
  cbv zeta. apply (normalizer_never_lengthens _ _ " my.bot hi "). reflexivity.
Defined.

Lemma message_event_is_forwarded_witness :
  let this := Examples.bot_with Examples.lychii
                [Examples.shouting; Examples.quiet] in
  let metaMsg := Examples.message_from (Some Examples.alice)
                   (Some "lychii hi") (Some "some_new_subtype") false in
  onIncomingMessage this metaMsg
  = mkRun (Normal tt)
          [Debug "received from alice in channel general: hi";
           Debug "processing: hi";
           PluginCall Examples.shouting (set_text metaMsg (Some "hi"));
           PluginCall Examples.quiet (set_text metaMsg (Some "HI"))]
          (set_text metaMsg (Some "HI")).
Proof.
  cbv zeta.
  exact (message_event_is_forwarded
           (Examples.bot_with Examples.lychii
              [Examples.shouting; Examples.quiet])
           Examples.lychii
           (Examples.message_from (Some Examples.alice)
              (Some "lychii hi") (Some "some_new_subtype") false)
           (Regex.mention_regex "lychii") "lychii hi"
           Examples.general eq_refl eq_refl eq_refl eq_refl eq_refl eq_refl).
Defined.

Lemma accepted_event_without_channel_throws_witness :
  onIncomingMessage (Examples.bot_with Examples.lychii [Examples.quiet])
    MoreExamples.channelless
  = mkRun (Throw TypeError) []
          (set_text MoreExamples.channelless (Some "hi")).
Proof.
  exact (accepted_event_without_channel_throws
           (Examples.bot_with Examples.lychii [Examples.quiet])
           Examples.lychii MoreExamples.channelless
           (Regex.mention_regex "lychii") "lychii hi"
           eq_refl eq_refl eq_refl eq_refl eq_refl).
Defined.

Lemma fan_out_passes_same_event_witness :
  let metaMsg := Examples.message_from (Some Examples.alice)
                   (Some "hi") None false in
  let ps := [Examples.quiet; Examples.faulty; Examples.quiet] in
  after (fan_out ps metaMsg) = metaMsg
  /\ exists n,
       effects (fan_out ps metaMsg)
       = map (fun p => PluginCall p metaMsg) (firstn n ps).
Proof.
  cbv zeta. apply fan_out_passes_same_event.
  intros p [<-|[<-|[<-|[]]]]; reflexivity.
Defined.

Lemma later_plugin_sees_earlier_changes_witness :
  let metaMsg := Examples.message_from (Some Examples.alice)
                   (Some "hi") None false in
  exists rest,
    effects (fan_out ([Examples.shouting] ++ Examples.quiet :: []) metaMsg)
    = (effects (fan_out [Examples.shouting] metaMsg)
       ++ PluginCall Examples.quiet
            (fold_left event_after [Examples.shouting] metaMsg) :: rest)%list.
Proof.
  cbv zeta. apply later_plugin_sees_earlier_changes. reflexivity.
Defined.

Lemma constructor_failure_ends_registration_witness :
  let r := loadPlugins
             (Some [Examples.Quiet; MoreExamples.Unbuildable;
                    Examples.Shouting])
             new_LychiiBot in
  completed r = Throw (Thrown "constructor failed")
  /\ after r = after (loadPlugins (Some [Examples.Quiet]) new_LychiiBot)
  /\ effects r
     = (effects (loadPlugins (Some [Examples.Quiet]) new_LychiiBot)
        ++ [Debug ("register plugin: "
                   ++ plugin_name MoreExamples.Unbuildable)])%list.
Proof.
  cbv zeta.
  apply (constructor_failure_ends_registration new_LychiiBot
           [Examples.Quiet] [Examples.Shouting] MoreExamples.Unbuildable
           (Thrown "constructor failed")); reflexivity.
Defined.

Lemma open_parenthesis_in_name_breaks_handler_witness :
  let metaMsg := Examples.message_from (Some Examples.alice)
                   (Some "hello") None true in
  onIncomingMessage (Examples.bot_with MoreExamples.smiley [Examples.quiet])
    metaMsg
  = throw RegExpSyntaxError metaMsg.
Proof.
  cbv zeta.
  apply (open_parenthesis_in_name_breaks_handler _ MoreExamples.smiley
           "bot:" ""); reflexivity.
Defined.

Lemma default_channel_is_last_match_witness :
  let r := onAuthenticated Examples.config new_LychiiBot
             Examples.identity_with_general in
  completed r = Normal tt
  /\ defaultChannel (after r) = Some Examples.general
  /\ effects r
     = [Debug ("login to team "
               ++ JS.ToString (team_name (identity_team
                                            Examples.identity_with_general))
               ++ " as "
               ++ JS.ToString (self_name (identity_self
                                            Examples.identity_with_general)));
        Debug ("default channel: "
               ++ JS.ToString (config_defaultChannel Examples.config))].
Proof.
  cbv zeta.
  apply (default_channel_is_last_match Examples.config new_LychiiBot
           Examples.identity_with_general [Examples.random] []
           Examples.general); reflexivity.
Defined.

Lemma botId_is_last_matching_entry_witness :
  self (after (onAuthenticated Examples.config new_LychiiBot
                 MoreExamples.identity_with_duplicates))
  = Some (mkSelf (Some "U1") (Some "lychii") (Some "B2")).
Proof.
  apply (botId_is_last_matching_entry Examples.config new_LychiiBot
           MoreExamples.identity_with_duplicates
           [mkUserEntry (Some "U1") (Some "B1")]
           [mkUserEntry (Some "U2") (Some "B3")]
           (mkUserEntry (Some "U1") (Some "B2"))); reflexivity.
Defined.

Lemma reauthentication_keeps_default_channel_witness :
  let this := Examples.bot_with Examples.lychii [Examples.quiet] in
  let r := onAuthenticated Examples.config this
             Examples.identity_without_general in
  completed r = Normal tt
  /\ defaultChannel (after r) = Some Examples.general
  /\ team (after r)
     = Some (identity_team Examples.identity_without_general)
  /\ users (after r)
     = Some (identity_users Examples.identity_without_general)
  /\ plugins (after r) = plugins this.
Proof.
  cbv zeta.
  apply (reauthentication_keeps_default_channel Examples.config
           (Examples.bot_with Examples.lychii [Examples.quiet])
           Examples.identity_without_general Examples.general); reflexivity.
Defined.

(** ** The trace of the fan-out *)

Lemma threaded_calls_app (a b : list PluginInstance) (metaMsg : MetaMsg) :
  threaded_calls (a ++ b) metaMsg
  = (threaded_calls a metaMsg
     ++ threaded_calls b (fold_left event_after a metaMsg))%list.
Proof.
  revert metaMsg. induction a as [|p a IH]; intros m; [reflexivity|].
  simpl. now rewrite IH.
Qed.

Lemma calls_threaded_calls (ps : list PluginInstance) (metaMsg : MetaMsg) :
  calls (threaded_calls ps metaMsg) = ps.
Proof.
  revert metaMsg. induction ps as [|p ps IH]; intros m; [reflexivity|].
  simpl. now rewrite IH.
Qed.

Lemma call_plugin_run (p : PluginInstance) (m : MetaMsg) :
  call_plugin p m
  = mkRun (match snd (plugin_processMessage p m) with
           | Returns => Normal tt
           | Throws e => Throw e
           end)
          [PluginCall p m] (event_after m p).
Proof.
  unfold call_plugin, event_after. now destruct (plugin_processMessage p m).
Qed.

(** The fan-out calls the plugins in the order of the list, each with
    the event as the earlier ones left it, and stops after the first one
    that throws: either every plugin was called and returned, or the
    last plugin called threw and the fan-out ends with its exception. *)
Lemma fan_out_run (ps : list PluginInstance) (metaMsg : MetaMsg) :
  exists called rest,
    ps = (called ++ rest)%list
    /\ effects (fan_out ps metaMsg) = threaded_calls called metaMsg
    /\ after (fan_out ps metaMsg) = fold_left event_after called metaMsg
    /\ ((rest = [] /\ completed (fan_out ps metaMsg) = Normal tt)
        \/ exists e earlier q,
             called = (earlier ++ [q])%list
             /\ snd (plugin_processMessage q
                       (fold_left event_after earlier metaMsg)) = Throws e
             /\ completed (fan_out ps metaMsg) = Throw e).
Proof.
  revert metaMsg. induction ps as [|p ps IH]; intros m.
  - exists [], []. repeat split. now left.
  - rewrite fan_out_cons, call_plugin_run. unfold and_then.
    cbn [completed effects after].
    destruct (snd (plugin_processMessage p m)) as [|e] eqn:Hp.
    + destruct (IH (event_after m p))
        as (called & rest & Hps & Heff & Haft & Hend).
      exists (p :: called), rest. cbn [completed effects after].
      split; [now rewrite Hps|]. split; [now rewrite Heff|].
      split; [exact Haft|].
      destruct Hend as [[Hrest Hc]|(e & earlier & q & Hcalled & Hq & Hc)].
      * left. now split.
      * right. exists e, (p :: earlier), q. rewrite Hcalled.
        repeat split; assumption.
    + exists [p], ps. repeat split. right.
      exists e, [], p. repeat split. exact Hp.
Qed.

(** When every plugin of the list returns, all of them are called. *)
Lemma fan_out_all_return (ps : list PluginInstance) (metaMsg : MetaMsg) :
  (forall p m, In p ps -> snd (plugin_processMessage p m) = Returns) ->
  fan_out ps metaMsg
  = mkRun (Normal tt) (threaded_calls ps metaMsg)
          (fold_left event_after ps metaMsg).
Proof.
  revert metaMsg. induction ps as [|p ps IH]; intros m Hret; [reflexivity|].
  rewrite fan_out_cons, call_plugin_run, (Hret p m (or_introl eq_refl)).
  unfold and_then. cbn [completed effects after].
  rewrite IH by (intros q m' Hq; apply Hret; now right).
  reflexivity.
Qed.

(** When the fan-out over a list completes, all of the list was called. *)
Lemma fan_out_normal_run (ps : list PluginInstance) (metaMsg : MetaMsg) :
  completed (fan_out ps metaMsg) = Normal tt ->
  fan_out ps metaMsg
  = mkRun (Normal tt) (threaded_calls ps metaMsg)
          (fold_left event_after ps metaMsg).
Proof.
  revert metaMsg. induction ps as [|p ps IH]; intros m; [reflexivity|].
  rewrite fan_out_cons, call_plugin_run. unfold and_then.
  cbn [completed effects after].
  destruct (snd (plugin_processMessage p m)) as [|e];
    cbn [completed effects after]; [|discriminate].
  intros H. rewrite (IH _ H). reflexivity.
Qed.

(** Definitions that construct and whose init hooks do not throw all
    register, in their order. *)
Lemma register_all_run (defs : list PluginClass)
  (instances : list PluginInstance) (this : LychiiBot) :
  map plugin_new defs = map inr instances ->
  (forall inst e, In inst instances -> plugin_init inst <> Some (Throws e)) ->
  completed (for_each registerPlugin defs this) = Normal tt
  /\ plugins (after (for_each registerPlugin defs this))
     = (plugins this ++ instances)%list.
Proof.
  revert instances this.
  induction defs as [|d defs IH]; intros [|inst instances] this Hnew Hinit;
    try discriminate Hnew.
  - split; [reflexivity|]. simpl. now rewrite app_nil_r.
  - cbn [map] in Hnew. injection Hnew as Hd Hnew.
    assert (Hc : completed (registerPlugin this d) = Normal tt).
    { rewrite registerPlugin_completed, Hd.
      destruct (plugin_init inst) as [[|e]|] eqn:Hi; try reflexivity.
      destruct (Hinit inst e (or_introl eq_refl) Hi). }
    cbn [for_each]. rewrite (and_then_normal _ _ Hc).
    cbn [completed after]. rewrite registerPlugin_after, Hd.
    destruct (IH instances (push_plugin this inst) Hnew) as [Hn Hp].
    { intros i e Hi. apply Hinit. now right. }
    split; [exact Hn|]. rewrite Hp. simpl. now rewrite <- app_assoc.
Qed.

(** C8. When plugin definitions that construct and initialise are
    registered one after the other, the registry holds their instances
    after the earlier ones, in the order of registration.  For every
    event the fan-out then calls the plugins in the order of the
    registry, each once, and stops only after a plugin that throws: the
    calls are those of an initial segment of the registry, which is all
    of it unless its last plugin called threw; when every plugin
    returns, every plugin is called, in registration order, for every
    event. *)
Theorem dispatch_order_is_registration_order (this : LychiiBot)
  (defs : list PluginClass) (instances : list PluginInstance) :
  map plugin_new defs = map inr instances ->
  (forall inst e, In inst instances -> plugin_init inst <> Some (Throws e)) ->
  let bot := after (loadPlugins (Some defs) this) in
  let registry := (plugins this ++ instances)%list in
  completed (loadPlugins (Some defs) this) = Normal tt
  /\ plugins bot = registry
  /\ forall metaMsg,
       (exists called rest,
          registry = (called ++ rest)%list
          /\ effects (processMessage bot metaMsg)
             = Debug ("processing: " ++ JS.ToString (text metaMsg))
               :: threaded_calls called metaMsg
          /\ ((rest = []
               /\ completed (processMessage bot metaMsg) = Normal tt)
              \/ exists e earlier q,
                   called = (earlier ++ [q])%list
                   /\ snd (plugin_processMessage q
                             (fold_left event_after earlier metaMsg))
                      = Throws e
                   /\ completed (processMessage bot metaMsg) = Throw e))
       /\ ((forall p m, In p registry ->
                        snd (plugin_processMessage p m) = Returns) ->
           processMessage bot metaMsg
           = mkRun (Normal tt)
                   (Debug ("processing: " ++ JS.ToString (text metaMsg))
                    :: threaded_calls registry metaMsg)
                   (fold_left event_after registry metaMsg)).
Proof.
  intros Hnew Hinit. cbv zeta. cbn [loadPlugins].
  destruct (register_all_run defs instances this Hnew Hinit) as [Hc Hp].
  split; [exact Hc|]. split; [exact Hp|].
  intros metaMsg. unfold processMessage, and_then.
  cbn [completed effects after debug]. rewrite Hp. split.
  - destruct (fan_out_run (plugins this ++ instances) metaMsg)
      as (called & rest & Hreg & Heff & _ & Hend).
    exists called, rest. split; [exact Hreg|].
    split; [cbn [app]; now rewrite Heff|exact Hend].
  - intros Hret. now rewrite (fan_out_all_return _ _ Hret).
Qed.

Lemma dispatch_order_is_registration_order_witness :
  let defs := [Examples.Quiet; Examples.Shouting; Examples.Quiet] in
  let registry := [Examples.quiet; Examples.shouting; Examples.quiet] in
  let metaMsg := Examples.message_from (Some Examples.alice)
                   (Some "hi") None false in
  plugins (after (loadPlugins (Some defs) new_LychiiBot)) = registry
  /\ processMessage (after (loadPlugins (Some defs) new_LychiiBot)) metaMsg
     = mkRun (Normal tt)
             [Debug "processing: hi";
              PluginCall Examples.quiet metaMsg;
              PluginCall Examples.shouting metaMsg;
              PluginCall Examples.quiet (set_text metaMsg (Some "HI"))]
             (set_text metaMsg (Some "HI")).
Proof.
  cbv zeta.
  destruct (dispatch_order_is_registration_order new_LychiiBot
              [Examples.Quiet; Examples.Shouting; Examples.Quiet]
              [Examples.quiet; Examples.shouting; Examples.quiet]
              eq_refl)
    as (_ & Hreg & Hrun).
  - intros inst e [<-|[<-|[<-|[]]]]; discriminate.
  - split; [exact Hreg|].
    apply (proj2 (Hrun (Examples.message_from (Some Examples.alice)
                          (Some "hi") None false))).
    intros p m [<-|[<-|[<-|[]]]]; reflexivity.
Defined.

(** ** A plugin that throws *)

Section PluginFailure.

Context {engine : RegExpEngine}.

(** On the default branch the handler logs the event and ends as
    [processMessage] ends on the normalised event. *)
Lemma onIncomingMessage_default_branch (this : LychiiBot) (me : Self)
  (raw : MetaMsg) (re : RegExp) (t : string) (c : Channel) :
  self this = Some me ->
  RegExp_i (selfRecognizeSource (self_name me)) = Regex.Constructed re ->
  isAcceptable this raw re = Normal true ->
  text raw = Some t ->
  channel raw = Some c ->
  Spec.log_only_subtype (effective_subtype raw) = false ->
  let normalized := String_replace (JS.trim t) re in
  let dispatched := processMessage this (set_text raw (Some normalized)) in
  onIncomingMessage this raw
  = mkRun (completed dispatched)
          (Debug ("received from "
                  ++ JS.ToString (sender_name (effective_user raw))
                  ++ " in channel " ++ JS.ToString (channel_name c)
                  ++ ": " ++ normalized)
           :: effects dispatched)
          (after dispatched).
Proof.
  intros Hme Hre Hacc Ht Hc Hsub. cbv zeta.
  unfold onIncomingMessage. rewrite Hme, Hre, Hacc.
  unfold trimMessage. rewrite Ht, done_and_then.
  unfold classify_event.
  change (effective_subtype (set_text raw _)) with (effective_subtype raw).
  destruct (default_branch _ Hsub) as (-> & -> & ->).
  unfold debug_in_channel. cbn [channel set_text]. rewrite Hc.
  reflexivity.
Qed.

(** C1, as amended. When the plugins registered before [p] return and
    [p] throws, [processMessage] ends with the exception of [p]; all it
    has done is log the processing line and call the plugins before [p]
    and [p], in registration order, each with the event as the earlier
    ones left it: no plugin registered after [p] is called and no
    failure is logged.  The exception also leaves [onIncomingMessage],
    which has logged only the received line before. *)
Theorem throwing_plugin_ends_fan_out (this : LychiiBot)
  (pre post : list PluginInstance) (p : PluginInstance) (metaMsg : MetaMsg)
  (e : exn) :
  plugins this = (pre ++ p :: post)%list ->
  completed (fan_out pre metaMsg) = Normal tt ->
  snd (plugin_processMessage p (after (fan_out pre metaMsg))) = Throws e ->
  processMessage this metaMsg
  = mkRun (Throw e)
          (Debug ("processing: " ++ JS.ToString (text metaMsg))
           :: threaded_calls (pre ++ [p]) metaMsg)
          (fold_left event_after (pre ++ [p]) metaMsg)
  /\ calls (effects (processMessage this metaMsg)) = (pre ++ [p])%list
  /\ forall (me : Self) (raw : MetaMsg) (re : RegExp) (t : string)
            (c : Channel),
       self this = Some me ->
       RegExp_i (selfRecognizeSource (self_name me)) = Regex.Constructed re ->
       isAcceptable this raw re = Normal true ->
       text raw = Some t ->
       channel raw = Some c ->
       Spec.log_only_subtype (effective_subtype raw) = false ->
       metaMsg = set_text raw (Some (String_replace (JS.trim t) re)) ->
       onIncomingMessage this raw
       = mkRun (Throw e)
               (Debug ("received from "
                       ++ JS.ToString (sender_name (effective_user raw))
                       ++ " in channel " ++ JS.ToString (channel_name c)
                       ++ ": " ++ String_replace (JS.trim t) re)
                :: Debug ("processing: " ++ JS.ToString (text metaMsg))
                :: threaded_calls (pre ++ [p]) metaMsg)
               (fold_left event_after (pre ++ [p]) metaMsg).
Proof.
  intros Hps Hpre Hp.
  assert (Hrun : processMessage this metaMsg
                 = mkRun (Throw e)
                         (Debug ("processing: "
                                 ++ JS.ToString (text metaMsg))
                          :: threaded_calls (pre ++ [p]) metaMsg)
                         (fold_left event_after (pre ++ [p]) metaMsg)).
  { unfold processMessage, and_then. cbn [completed effects after debug].
    rewrite Hps, fan_out_app.
    rewrite (fan_out_normal_run _ _ Hpre) in Hp |- *.
    cbn [after] in Hp. unfold and_then. cbn [completed effects after].
    rewrite fan_out_cons, call_plugin_run, Hp. unfold and_then.
    cbn [completed effects after].
    rewrite threaded_calls_app, fold_left_app. reflexivity. }
  split; [exact Hrun|]. split.
  - rewrite Hrun. cbn [effects calls]. apply calls_threaded_calls.
  - intros me raw re t c Hme Hre Hacc Ht Hc Hsub Hfwd.
    rewrite (onIncomingMessage_default_branch this me raw re t c
               Hme Hre Hacc Ht Hc Hsub).
    cbv zeta. rewrite <- Hfwd, Hrun. reflexivity.
Qed.

End PluginFailure.

Lemma throwing_plugin_ends_fan_out_witness :
  let this := Examples.bot_with Examples.lychii
                [Examples.shouting; Examples.faulty; Examples.quiet] in
  let raw := Examples.message_from (Some Examples.alice)
               (Some "lychii hi") None false in
  let metaMsg := set_text raw (Some "hi") in
  processMessage this metaMsg
  = mkRun (Throw (Thrown "boom"))
          [Debug "processing: hi";
           PluginCall Examples.shouting metaMsg;
           PluginCall Examples.faulty (set_text raw (Some "HI"))]
          (set_text raw (Some "HI"))
  /\ onIncomingMessage this raw
     = mkRun (Throw (Thrown "boom"))
             [Debug "received from alice in channel general: hi";
              Debug "processing: hi";
              PluginCall Examples.shouting metaMsg;
              PluginCall Examples.faulty (set_text raw (Some "HI"))]
             (set_text raw (Some "HI")).
Proof.
  cbv zeta.
  destruct (throwing_plugin_ends_fan_out
              (Examples.bot_with Examples.lychii
                 [Examples.shouting; Examples.faulty; Examples.quiet])
              [Examples.shouting] [Examples.quiet] Examples.faulty
              (set_text (Examples.message_from (Some Examples.alice)
                           (Some "lychii hi") None false) (Some "hi"))
              (Thrown "boom") eq_refl eq_refl eq_refl)
    as (Hrun & _ & Hhandler).
  split; [exact Hrun|].
  exact (Hhandler Examples.lychii
           (Examples.message_from (Some Examples.alice)
              (Some "lychii hi") None false)
           (Regex.mention_regex "lychii") "lychii hi" Examples.general
           eq_refl eq_refl eq_refl eq_refl eq_refl eq_refl eq_refl).
Defined.

(** ** The directory scan *)

Lemma scan_entry_extends (this : LychiiBot) (file : DirEntry) :
  extends_registry this (after (scan_entry this file)).
Proof.
  unfold scan_entry.
  destruct (isDirectory file) as [e|[|]]; try apply extends_registry_refl.
  destruct (required file) as [e|[plugin|]];
    try apply extends_registry_refl.
  apply registerPlugin_extends.
Qed.

Lemma scan_without_exception (files : list DirEntry) (this : LychiiBot) :
  (forall file, In file files -> entry_exception file = None) ->
  for_each scan_entry files this
  = for_each registerPlugin (discovered files) this.
Proof.
  revert this. induction files as [|file files IH]; intros this Hok;
    [reflexivity|].
  assert (Hfile : entry_exception file = None) by (apply Hok; now left).
  assert (Hrest : forall f, In f files -> entry_exception f = None)
    by (intros f Hf; apply Hok; now right).
  cbn [for_each discovered]. unfold scan_entry at 1.
  unfold entry_exception in Hfile.
  destruct (isDirectory file) as [e|[|]]; try discriminate Hfile.
  - destruct (required file) as [e|[plugin|]]; try discriminate Hfile.
    + cbn [for_each]. unfold and_then.
      destruct (completed (registerPlugin this plugin)); try reflexivity.
      now rewrite IH.
    + rewrite done_and_then. now apply IH.
  - rewrite done_and_then. now apply IH.
Qed.

(** X11. Loading plugins only ever appends to the registry: after
    [loadPlugins], for either source, and after the callback of the
    directory scan, for every listing or error and however the run
    ends, the plugins registered before are still in place and in
    order, and the identity of the bot is not touched. *)
Theorem loadPlugins_only_appends
  (modulePlugins : option (list PluginClass))
  (result : exn + option (list DirEntry)) (this : LychiiBot) :
  extends_registry this (after (loadPlugins modulePlugins this))
  /\ extends_registry this (after (readdir_callback result this)).
Proof.
  split.
  - unfold loadPlugins. destruct modulePlugins as [defs|].
    + apply for_each_extends. apply registerPlugin_extends.
    + apply extends_registry_refl.
  - unfold readdir_callback.
    destruct result as [err|[files|]]; try apply extends_registry_refl.
    apply for_each_extends. apply scan_entry_extends.
Qed.

(** X12. Without a module list [loadPlugins] itself registers nothing.
    When the listing arrives and neither [lstatSync] nor [require]
    throws on an entry, the callback registers, in the order of the
    listing, the modules of the entries that are directories and yield
    a module, and skips the others: it runs as the registration of that
    list of definitions does. *)
Theorem directory_scan_registers_discovered (files : list DirEntry)
  (this : LychiiBot) :
  (forall file, In file files -> entry_exception file = None) ->
  loadPlugins None this = done this
  /\ readdir_callback (inr (Some files)) this
     = loadPlugins (Some (discovered files)) this.
Proof.
  intros Hok. split; [reflexivity|].
  cbn [readdir_callback loadPlugins]. now apply scan_without_exception.
Qed.

(** X18. The scan stops at the first entry on which [lstatSync] or
    [require] throws: the entries before it are registered as above, the
    exception leaves the callback, and no later entry is looked at. *)
Theorem scan_stops_at_throwing_entry (before rest : list DirEntry)
  (file : DirEntry) (e : exn) (this : LychiiBot) :
  (forall f, In f before -> entry_exception f = None) ->
  completed (loadPlugins (Some (discovered before)) this) = Normal tt ->
  entry_exception file = Some e ->
  let r := readdir_callback (inr (Some (before ++ file :: rest)%list)) this in
  completed r = Throw e
  /\ after r = after (loadPlugins (Some (discovered before)) this)
  /\ effects r = effects (loadPlugins (Some (discovered before)) this).
Proof.
  cbn [loadPlugins readdir_callback]. intros Hok Hpre Hfile. cbv zeta.
  rewrite for_each_app, (scan_without_exception _ _ Hok).
  rewrite (and_then_normal _ _ Hpre). cbn [completed effects after for_each].
  assert (Hthrow : forall bot, scan_entry bot file = throw e bot).
  { intros bot. unfold scan_entry. unfold entry_exception in Hfile.
    destruct (isDirectory file) as [e1|[|]]; try discriminate Hfile.
    - now injection Hfile as ->.
    - destruct (required file) as [e2|[plugin|]]; try discriminate Hfile.
      now injection Hfile as ->. }
  rewrite Hthrow. unfold and_then, throw. cbn [completed effects after].
  rewrite app_nil_r. repeat split.
Qed.

Lemma directory_scan_registers_discovered_witness :
  readdir_callback (inr (Some MoreExamples.plugins_dir)) new_LychiiBot
  = loadPlugins (Some [Examples.Quiet; Examples.Shouting]) new_LychiiBot.
Proof.
  refine (proj2 (directory_scan_registers_discovered
                   MoreExamples.plugins_dir new_LychiiBot _)).
  intros file [<-|[<-|[<-|[<-|[]]]]]; reflexivity.
Defined.

Lemma scan_stops_at_throwing_entry_witness :
  let r := readdir_callback
             (inr (Some (MoreExamples.plugins_dir
                         ++ MoreExamples.broken_dir
                            :: [mkDirEntry (inr true)
                                  (inr (Some Examples.Faulty))])%list))
             new_LychiiBot in
  completed r = Throw (Thrown "Cannot find module")
  /\ plugins (after r) = [Examples.quiet; Examples.shouting]
  /\ effects r = [Debug "register plugin: Quiet";
                  Debug "register plugin: Shouting"].
Proof.
  cbv zeta.
  destruct (scan_stops_at_throwing_entry MoreExamples.plugins_dir
              [mkDirEntry (inr true) (inr (Some Examples.Faulty))]
              MoreExamples.broken_dir (Thrown "Cannot find module")
              new_LychiiBot)
    as (Hc & Ha & He).
  - intros file [<-|[<-|[<-|[<-|[]]]]]; reflexivity.
  - reflexivity.
  - reflexivity.
  - split; [exact Hc|]. split; [now rewrite Ha|exact He].
Defined.
